(** * BayesOpt: the MCMC posterior model ([include/posterior_mcmc.hpp])

    A shallow embedding of [bayesopt::MCMCModel], the ensemble of
    surrogate models and criteria (one pair per MCMC particle), and the
    properties of its inline member functions.

    - C++ [double] is IEEE binary64: Rocq's primitive [float].
    - [size_t] is [N]; the header only reads [nParticles] and converts
      it to [double].
    - [boost::ptr_vector<T>] is [list T]: the vector owns its elements,
      no element is shared between two slots.
    - [Criteria] and [NonParametricProcess] are abstract base classes
      whose code lives outside this header: they are type classes, and
      every member function is a state transformer of the object it is
      called on that returns normally, throws, or has undefined
      behaviour.
    - Every ensemble operation yields its outcome, the ensemble after
      the call and the list of collaborator calls it made, in order.
    - The constructor and [updateHyperParameters] are declared in the
      header and defined elsewhere: they are modelled from the
      specification, in a part of their own. *)

From Stdlib Require Import ZArith NArith Floats Lia.
From stdpp Require Import base option list strings.

(** ** Values *)

(** [vectord] is [boost::numeric::ublas::vector<double>]. *)
Definition vectord : Type := list float.

Definition size_t : Type := N.

(** [static_cast<double>(n)] for an unsigned integer: the nearest
    binary64 value, ties to even. *)
Definition double_of_size_t (n : size_t) : float :=
  SF2Prim (binary_normalize prec emax (Z.of_N n) 0 false).

(** ** Outcomes of a call *)

(** Modelled from the spec: the exception classes, none of which the
    header declares.  The first four kinds are the taxonomy of section
    7 ([SurrogateFitError] and [EvaluationError] carry "the failing
    particle index"); [StdException] is any other C++ exception.  The
    header itself has no [try], [catch] or [throw]: what a collaborator
    throws crosses the ensemble as it is. *)
Inductive exn : Type :=
| ConfigurationError
| SamplingError
| SurrogateFitError (particle : nat)
| EvaluationError (particle : nat)
| StdException (what : string).

(** A call returns a value, throws, or has undefined behaviour (a
    [ptr_vector] indexed past its end, an uninitialised value read). *)
Inductive outcome (A : Type) : Type :=
| Returns (a : A)
| Throws (e : exn)
| Undefined.

Arguments Returns {A} a.
Arguments Throws {A} e.
Arguments Undefined {A}.

(** ** The collaborators *)

(** [class Criteria] (criteria_functors.hpp), the member functions the
    ensemble calls.  [getBestCriteria(vectord& best)] takes [best] by
    reference: the model passes its value in and returns the label
    together with the value left in it. *)
Module Criteria.
Class t (Crit : Type) : Type := {
  evaluate : Crit -> vectord -> outcome float * Crit;
  update : Crit -> vectord -> outcome unit * Crit;
  requireComparison : Crit -> outcome bool * Crit;
  initialCriteria : Crit -> outcome unit * Crit;
  pushResult : Crit -> vectord -> outcome unit * Crit;
  rotateCriteria : Crit -> outcome bool * Crit;
  getBestCriteria : Crit -> vectord -> outcome (string * vectord) * Crit
}.
End Criteria.

(** [class NonParametricProcess], the member functions the ensemble
    calls.  [prediction] returns a [ProbabilityDistribution*]; the model
    returns the distribution pointed to. *)
Module NonParametricProcess.
Class t (GP Dist : Type) : Type := {
  fitSurrogateModel : GP -> outcome unit * GP;
  updateSurrogateModel : GP -> outcome unit * GP;
  prediction : GP -> vectord -> outcome Dist * GP
}.
End NonParametricProcess.

(** ** Calls made on the collaborators *)

Inductive gp_method : Type :=
| FitSurrogateModel
| UpdateSurrogateModel
| Prediction (query : vectord).

Inductive crit_method : Type :=
| Evaluate (query : vectord)
| Update (query : vectord)
| RequireComparison
| InitialCriteria
| PushResult (prevResult : vectord)
| RotateCriteria
| GetBestCriteria (best : vectord).

(** [OnGP i f] is the call [mGP[i].f(..)], [OnCrit i f] the call
    [mCrit[i].f(..)]. *)
Inductive call : Type :=
| OnGP (i : nat) (f : gp_method)
| OnCrit (i : nat) (f : crit_method).

(** ** Loops over a [ptr_vector] *)

(** [for (it = v.begin(); it != v.end(); ++it) acc = g(acc, it->f());]
    The elements are visited from the front.  The first call that does
    not return normally ends the loop and is the outcome of the loop;
    the elements after it are left as they were.  [i] is the index of
    the first element of [v], [ev] names the call made on an element. *)
Fixpoint for_each {T A B : Type} (f : T -> outcome B * T) (g : A -> B -> A)
    (ev : nat -> call) (i : nat) (acc : A) (v : list T)
    : outcome A * list T * list call :=
  match v with
  | [] => (Returns acc, [], [])
  | x :: v' =>
      match f x with
      | (Returns y, x') =>
          let '(o, w, tr) := for_each f g ev (S i) (g acc y) v' in
          (o, x' :: w, ev i :: tr)
      | (Throws e, x') => (Throws e, x' :: v', [ev i])
      | (Undefined, x') => (Undefined, x' :: v', [ev i])
      end
  end.

(** The call [f] on the element [x] returns [y]. *)
Definition yields {T B : Type} (f : T -> outcome B * T) (x : T) (y : B)
    : Prop :=
  (f x).1 = Returns y.

(** The element as the call [f] leaves it. *)
Definition left_by {T B : Type} (f : T -> outcome B * T) (x : T) : T :=
  (f x).2.

(** ** The ensemble *)

Module MCMCModel.
Section Ensemble.

Context {Crit GP Dist : Type}.
Context `{!Criteria.t Crit} `{!NonParametricProcess.t GP Dist}.

(** The data members of [class MCMCModel].  [kSampler] is used by no
    inline member function. *)
Record t : Type := Build {
  nParticles : size_t;
  mGP : list GP;
  mCrit : list Crit
}.

Definition with_mGP (v : list GP) (m : t) : t :=
  Build (nParticles m) v (mCrit m).

Definition with_mCrit (v : list Crit) (m : t) : t :=
  Build (nParticles m) (mGP m) v.

(** What a call on the ensemble leaves behind. *)
Record ran (A : Type) : Type := Ran {
  result : outcome A;
  state : t;
  trace : list call
}.
Arguments Ran {A} _ _ _.
Arguments result {A} _.
Arguments state {A} _.
Arguments trace {A} _.

Definition M (A : Type) : Type := t -> ran A.

Definition ret {A} (a : A) : M A := fun m => Ran (Returns a) m [].

Definition undefined {A} : M A := fun m => Ran Undefined m [].

Definition bind {A B} (c : M A) (k : A -> M B) : M B := fun m =>
  let r := c m in
  match result r with
  | Returns a =>
      let r' := k a (state r) in
      Ran (result r') (state r') (trace r ++ trace r')
  | Throws e => Ran (Throws e) (state r) (trace r)
  | Undefined => Ran Undefined (state r) (trace r)
  end.

Notation "x <- c ;; k" := (bind c (fun x => k))
  (at level 100, c at next level, right associativity).
Notation "c ;;; k" := (bind c (fun _ => k))
  (at level 100, right associativity).

(** [mCrit[i].f(..)]: [ptr_vector::operator[]] past the end is
    undefined behaviour. *)
Definition crit_at {A} (i : nat) (name : crit_method)
    (f : Crit -> outcome A * Crit) : M A := fun m =>
  match mCrit m !! i with
  | None => Ran Undefined m []
  | Some c =>
      let (o, c') := f c in
      Ran o (with_mCrit (<[i := c']> (mCrit m)) m) [OnCrit i name]
  end.

(** [mGP[i].f(..)]. *)
Definition gp_at {A} (i : nat) (name : gp_method)
    (f : GP -> outcome A * GP) : M A := fun m =>
  match mGP m !! i with
  | None => Ran Undefined m []
  | Some g =>
      let (o, g') := f g in
      Ran o (with_mGP (<[i := g']> (mGP m)) m) [OnGP i name]
  end.

(** A loop over [mCrit], from [begin()] to [end()]. *)
Definition for_crit {A B} (name : crit_method)
    (f : Crit -> outcome B * Crit) (g : A -> B -> A) (acc : A) : M A :=
  fun m =>
    let '(o, v, tr) :=
      for_each f g (fun i => OnCrit i name) 0 acc (mCrit m) in
    Ran o (with_mCrit v m) tr.

(** A loop over [mGP], from [begin()] to [end()]. *)
Definition for_gp {A B} (name : gp_method)
    (f : GP -> outcome B * GP) (g : A -> B -> A) (acc : A) : M A :=
  fun m =>
    let '(o, v, tr) :=
      for_each f g (fun i => OnGP i name) 0 acc (mGP m) in
    Ran o (with_mGP v m) tr.

(** Read of the data member [nParticles]. *)
Definition get_nParticles : M size_t :=
  fun m => Ran (Returns (nParticles m)) m [].

(** *** The inline member functions *)

(** [for (it ...) it->fitSurrogateModel();] *)
Definition fitSurrogateModel : M unit :=
  for_gp FitSurrogateModel
    NonParametricProcess.fitSurrogateModel (fun _ _ => tt) tt.

(** [for (it ...) it->updateSurrogateModel();] *)
Definition updateSurrogateModel : M unit :=
  for_gp UpdateSurrogateModel
    NonParametricProcess.updateSurrogateModel (fun _ _ => tt) tt.

(** [double sum = 0.0;
     for (it ...) sum += it->evaluate(query);
     return sum/static_cast<double>(nParticles);] *)
Definition evaluateCriteria (query : vectord) : M float :=
  sum <- for_crit (Evaluate query)
           (fun c => Criteria.evaluate c query) PrimFloat.add 0%float ;;
  n <- get_nParticles ;;
  ret (PrimFloat.div sum (double_of_size_t n)).

(** [for (it ...) it->update(query);] *)
Definition updateCriteria (query : vectord) : M unit :=
  for_crit (Update query)
    (fun c => Criteria.update c query) (fun _ _ => tt) tt.

(** [return mCrit[0].requireComparison();] *)
Definition criteriaRequiresComparison : M bool :=
  crit_at 0 RequireComparison Criteria.requireComparison.

(** [for (it ...) it->initialCriteria();] *)
Definition setFirstCriterium : M unit :=
  for_crit InitialCriteria Criteria.initialCriteria (fun _ _ => tt) tt.

(** [bool rotated;
     mCrit[0].pushResult(prevResult);
     for (it ...) rotated = it->rotateCriteria();
     return rotated;]
    [rotated] is declared without an initial value: it is [None]
    until the loop assigns it, and returning it unassigned is
    undefined. *)
Definition setNextCriterium (prevResult : vectord) : M bool :=
  crit_at 0 (PushResult prevResult)
    (fun c => Criteria.pushResult c prevResult) ;;;
  rotated <- for_crit RotateCriteria
               Criteria.rotateCriteria (fun _ b => Some b) None ;;
  match rotated with
  | Some b => ret b
  | None => undefined
  end.

(** [return mCrit[0].getBestCriteria(best);] *)
Definition getBestCriteria (best : vectord) : M (string * vectord) :=
  crit_at 0 (GetBestCriteria best)
    (fun c => Criteria.getBestCriteria c best).

(** [return mGP[0].prediction(query);] *)
Definition getPrediction (query : vectord) : M Dist :=
  gp_at 0 (Prediction query)
    (fun g => NonParametricProcess.prediction g query).

(** The ensemble a caller holds after a call: none after undefined
    behaviour. *)
Definition after {A} (r : ran A) : option t :=
  match result r with
  | Undefined => None
  | _ => Some (state r)
  end.

(** [m'] has the count and the numbers of surrogates and criteria
    of [m]. *)
Definition same_shape (m m' : t) : Prop :=
  nParticles m' = nParticles m /\
  length (mGP m') = length (mGP m) /\
  length (mCrit m') = length (mCrit m).

(** The call returned normally. *)
Definition returned {A} (x : ran A) : Prop :=
  exists a, result x = Returns a.

(** Consecutive calls [setNextCriterium(r_1)], [setNextCriterium(r_2)],
    ...: what each call did.  Each call is made on the ensemble the
    call before it left, whether that call returned or threw; no call
    follows undefined behaviour. *)
Fixpoint setNextCriterium_each (rs : list vectord) (m : t)
    : list (ran bool) :=
  match rs with
  | [] => []
  | r :: rs' =>
      let x := setNextCriterium r m in
      x :: match result x with
           | Undefined => []
           | _ => setNextCriterium_each rs' (state x)
           end
  end.

End Ensemble.

Arguments t : clear implicits.
Arguments Build {Crit GP} _ _ _.
Arguments ran : clear implicits.
Arguments Ran {Crit GP A} _ _ _.
Arguments result {Crit GP A} _.
Arguments state {Crit GP A} _.
Arguments trace {Crit GP A} _.
Arguments M : clear implicits.
Arguments returned {Crit GP A} _.

End MCMCModel.

(** ** Construction and resampling *)

Module Lifecycle.

(** Modelled from the spec: the Hyperparameter Sampler, the surrogate
    factory and the criterion factory (mcmc_sampler.hpp and the
    factories behind [setSurrogateModel] and [setCriteria]), of which
    the header shows no code.  Section 6 gives their contracts:
    [sample(dimension, configuration, randomEngine)] yields a
    sequence of particles, [create(Particle, configuration)] a
    surrogate and [create(SurrogateInstance, configuration)] a
    criterion.  The number of particles is computed from the
    configuration; [prior_particle] is the draw from the prior that
    the constructor uses for a slot. *)
Class t (Config Eng Particle GP Crit : Type) : Type := {
  configured_nParticles : Config -> size_t;
  valid_dimension : size_t -> bool;
  prior_particle : size_t -> Config -> Eng -> nat -> Particle;
  sample : size_t -> Config -> Eng -> outcome (list Particle);
  create_surrogate : Particle -> Config -> GP;
  create_criterion : GP -> Config -> Crit
}.

(** Modelled from the spec: the contract of the sampler, which is not
    part of the header, "sequence of Particle, length = nParticles"
    (section 6). *)
Class SamplerContract {Config Eng Particle GP Crit : Type}
    `{!t Config Eng Particle GP Crit} : Prop :=
  sample_length : forall dim params eng ps,
    sample dim params eng = Returns ps ->
    length ps = N.to_nat (configured_nParticles params).

Section Run.

Context {Config Eng Particle GP Crit Dist : Type}.
Context `{!Criteria.t Crit} `{!NonParametricProcess.t GP Dist}.
Context `{!t Config Eng Particle GP Crit}.

(** The dimension and the configuration are fixed for the run. *)
Variables (dim : size_t) (params : Config).

(** Modelled from the spec: the particle-construction routine
    ([setSurrogateModel] then [setCriteria]), declared in the header
    and defined in a source file that is not available.  Sections 3
    and 6: a surrogate per particle, and for each surrogate the
    criterion bound to it, in the same slot. *)
Definition populate (n : size_t) (particles : list Particle)
    : MCMCModel.t Crit GP :=
  let surrogates := (fun p => create_surrogate p params) <$> particles in
  MCMCModel.Build n surrogates
    ((fun g => create_criterion g params) <$> surrogates).

(** Modelled from the spec: the constructor
    [MCMCModel(dim, params, eng)], declared in the header and defined
    in a source file that is not available.  Section 4.1: it
    "computes nParticles from configuration, and immediately calls the
    particle-construction routine (setSurrogateModel, setCriteria) to
    populate the ensemble with an initial (untrained) particle set
    using the prior"; construction fails with [ConfigurationError] on
    an invalid dimension or [nParticles]. *)
Definition construct (eng : Eng) : outcome (MCMCModel.t Crit GP) :=
  let n := configured_nParticles params in
  if (n =? 0)%N || negb (valid_dimension dim)
  then Throws ConfigurationError
  else Returns (populate n
                  (prior_particle dim params eng <$> seq 0 (N.to_nat n))).

(** Modelled from the spec: [updateHyperParameters()], declared in
    the header and defined in a source file that is not available.
    Section 4.1: it "invokes the Hyperparameter Sampler to obtain a
    fresh set of nParticles particles [...], then (re)constructs the
    per-particle Surrogate and Criterion instances from scratch, bound
    to the new particles.  Must fail with ConfigurationError if
    nParticles == 0 or dimensionality is invalid."  A sampler that
    cannot produce particles is a [SamplingError]; the rebuild is
    all-or-nothing (section 5).  [eng] is the state of the random
    engine at the call. *)
Definition updateHyperParameters (eng : Eng)
    : MCMCModel.M Crit GP unit := fun m =>
  if (MCMCModel.nParticles m =? 0)%N || negb (valid_dimension dim)
  then MCMCModel.Ran (Throws ConfigurationError) m []
  else
    match sample dim params eng with
    | Returns particles =>
        MCMCModel.Ran (Returns tt)
          (populate (MCMCModel.nParticles m) particles) []
    | Throws _ => MCMCModel.Ran (Throws SamplingError) m []
    | Undefined => MCMCModel.Ran Undefined m []
    end.

(** The public member functions, as a caller may invoke them. *)
Inductive operation : Type :=
| CallUpdateHyperParameters (eng : Eng)
| CallFitSurrogateModel
| CallUpdateSurrogateModel
| CallEvaluateCriteria (query : vectord)
| CallUpdateCriteria (query : vectord)
| CallCriteriaRequiresComparison
| CallSetFirstCriterium
| CallSetNextCriterium (prevResult : vectord)
| CallGetBestCriteria (best : vectord)
| CallGetPrediction (query : vectord).

(** Operations whose code is in the header. *)
Definition inline_operation (op : operation) : bool :=
  match op with
  | CallUpdateHyperParameters _ => false
  | _ => true
  end.

(** The ensemble after the call, whether it returned or threw. *)
Definition perform (op : operation) (m : MCMCModel.t Crit GP)
    : option (MCMCModel.t Crit GP) :=
  match op with
  | CallUpdateHyperParameters eng =>
      MCMCModel.after (updateHyperParameters eng m)
  | CallFitSurrogateModel =>
      MCMCModel.after (MCMCModel.fitSurrogateModel m)
  | CallUpdateSurrogateModel =>
      MCMCModel.after (MCMCModel.updateSurrogateModel m)
  | CallEvaluateCriteria query =>
      MCMCModel.after (MCMCModel.evaluateCriteria query m)
  | CallUpdateCriteria query =>
      MCMCModel.after (MCMCModel.updateCriteria query m)
  | CallCriteriaRequiresComparison =>
      MCMCModel.after (MCMCModel.criteriaRequiresComparison m)
  | CallSetFirstCriterium =>
      MCMCModel.after (MCMCModel.setFirstCriterium m)
  | CallSetNextCriterium prevResult =>
      MCMCModel.after (MCMCModel.setNextCriterium prevResult m)
  | CallGetBestCriteria best =>
      MCMCModel.after (MCMCModel.getBestCriteria best m)
  | CallGetPrediction query =>
      MCMCModel.after (MCMCModel.getPrediction query m)
  end.

(** The ensembles a run can hold: the one the constructor returns,
    and the one left by a call on an ensemble of the run. *)
Inductive reachable : MCMCModel.t Crit GP -> Prop :=
| reachable_new eng m :
    construct eng = Returns m -> reachable m
| reachable_call op m m' :
    reachable m -> perform op m = Some m' -> reachable m'.

(** Both collections hold one element per particle. *)
Definition particle_count (m : MCMCModel.t Crit GP) : Prop :=
  MCMCModel.nParticles m = configured_nParticles params /\
  length (MCMCModel.mGP m) = N.to_nat (MCMCModel.nParticles m) /\
  length (MCMCModel.mCrit m) = N.to_nat (MCMCModel.nParticles m).

(** Slot [i] of both collections comes from the same particle. *)
Definition slots_aligned (particles : list Particle)
    (m : MCMCModel.t Crit GP) : Prop :=
  forall i p, particles !! i = Some p ->
    MCMCModel.mGP m !! i = Some (create_surrogate p params) /\
    MCMCModel.mCrit m !! i =
      Some (create_criterion (create_surrogate p params) params).

End Run.
End Lifecycle.

(** ** The active criterion of each particle *)

(** Criteria whose rotation is driven by the active index alone.  The
    classes derived from [Criteria] are not part of the header, and
    nothing in the header makes them so: this is a condition on the
    criteria an ensemble is built from, under which the header keeps
    the particles on one active index.  [activeIndex] reads the active
    criterion index of a criterion.  When the calls return:
    [initialCriteria] leaves the same index on every criterion,
    [pushResult] leaves the index where it was, and [rotateCriteria]
    takes two criteria on the same index to the same index. *)
Class IndexDrivenRotation {Crit : Type} `{!Criteria.t Crit}
    (activeIndex : Crit -> nat) : Prop := {
  initialCriteria_index c1 c2 :
    yields Criteria.initialCriteria c1 tt ->
    yields Criteria.initialCriteria c2 tt ->
    activeIndex (left_by Criteria.initialCriteria c1) =
    activeIndex (left_by Criteria.initialCriteria c2);
  pushResult_index c r :
    yields (fun c => Criteria.pushResult c r) c tt ->
    activeIndex (left_by (fun c => Criteria.pushResult c r) c) =
    activeIndex c;
  rotateCriteria_index c1 c2 b1 b2 :
    yields Criteria.rotateCriteria c1 b1 ->
    yields Criteria.rotateCriteria c2 b2 ->
    activeIndex c1 = activeIndex c2 ->
    activeIndex (left_by Criteria.rotateCriteria c1) =
    activeIndex (left_by Criteria.rotateCriteria c2)
}.

(** Every particle's criterion has the same active index. *)
Definition synchronized {Crit GP : Type} (activeIndex : Crit -> nat)
    (m : MCMCModel.t Crit GP) : Prop :=
  forall i j ci cj,
    MCMCModel.mCrit m !! i = Some ci ->
    MCMCModel.mCrit m !! j = Some cj ->
    activeIndex ci = activeIndex cj.

(** ** Arithmetic mean in [double] *)

(** [sum] adds from the left, starting from [0.0], as the loop of
    [evaluateCriteria] does. *)
Definition sum (ys : list float) : float := fold_left PrimFloat.add ys 0%float.

Definition mean (ys : list float) : float :=
  PrimFloat.div (sum ys) (double_of_size_t (N.of_nat (length ys))).

(** ** Test doubles *)

Module Stub.

(** A criterion whose evaluation is the constant [constant], with a
    portfolio of [portfolio] acquisition functions of which [active]
    is the current one, and the results pushed to it. *)
Record criterion : Type := Criterion {
  constant : float;
  active : nat;
  portfolio : nat;
  pushed : list vectord
}.

#[export] Instance criteria : Criteria.t criterion := {|
  Criteria.evaluate c _ := (Returns (constant c), c);
  Criteria.update c _ := (Returns tt, c);
  Criteria.requireComparison c := (Returns (1 <? portfolio c), c);
  Criteria.initialCriteria c :=
    (Returns tt, Criterion (constant c) 0 (portfolio c) []);
  Criteria.pushResult c r :=
    (Returns tt,
     Criterion (constant c) (active c) (portfolio c) (pushed c ++ [r]));
  Criteria.rotateCriteria c :=
    (Returns (S (active c) <? portfolio c),
     Criterion (constant c) (S (active c)) (portfolio c) (pushed c));
  Criteria.getBestCriteria c best :=
    (Returns ("stub"%string, default best (last (pushed c))), c)
|}.

(** A surrogate built from the particle [theta], whose fit throws
    when its covariance is [singular], and that counts its fits. *)
Record surrogate : Type := Surrogate {
  theta : nat;
  singular : bool;
  fits : nat
}.

Definition fit (g : surrogate) : outcome unit * surrogate :=
  if singular g
  then (Throws (StdException "singular covariance"), g)
  else (Returns tt, Surrogate (theta g) false (S (fits g))).

#[export] Instance process : NonParametricProcess.t surrogate nat := {|
  NonParametricProcess.fitSurrogateModel := fit;
  NonParametricProcess.updateSurrogateModel := fit;
  NonParametricProcess.prediction g _ := (Returns (fits g), g)
|}.

(** A configuration that is the number of particles, a random engine
    that is a seed, particles that are numbered from the seed. *)
#[export] Instance lifecycle
    : Lifecycle.t size_t nat nat surrogate criterion := {|
  Lifecycle.configured_nParticles params := params;
  Lifecycle.valid_dimension dim := (0 <? dim)%N;
  Lifecycle.prior_particle _ _ _ i := i;
  Lifecycle.sample _ params eng := Returns (seq eng (N.to_nat params));
  Lifecycle.create_surrogate p _ := Surrogate p false 0;
  Lifecycle.create_criterion g _ := Criterion 1 0 2 []
|}.

(** Three particles whose criteria evaluate to 1, 2 and 3. *)
Definition three : MCMCModel.t criterion surrogate :=
  MCMCModel.Build 3%N
    [Surrogate 0 false 0; Surrogate 1 false 0; Surrogate 2 false 0]
    [Criterion 1 0 2 []; Criterion 2 0 2 []; Criterion 3 0 2 []].

(** Particle 0 as in [three]; the other particles have been fitted,
    rotated and given results on their own, and there is one more. *)
Definition diverged : MCMCModel.t criterion surrogate :=
  MCMCModel.Build 3%N
    [Surrogate 0 false 0; Surrogate 5 false 7; Surrogate 6 true 1;
     Surrogate 7 false 2]
    [Criterion 1 0 2 []; Criterion 8 1 2 [[4%float]];
     Criterion 9 3 5 []; Criterion 1 0 1 []].

(** Five particles; the covariance of particle 2 is singular. *)
Definition five : MCMCModel.t criterion surrogate :=
  MCMCModel.Build 5%N
    [Surrogate 0 false 0; Surrogate 1 false 0; Surrogate 2 true 0;
     Surrogate 3 false 0; Surrogate 4 false 0]
    [Criterion 1 0 2 []; Criterion 1 0 2 []; Criterion 1 0 2 [];
     Criterion 1 0 2 []; Criterion 1 0 2 []].

(** What the constructor builds for three particles, and that
    ensemble after a resampling with seed 9 and a fit. *)
Definition fresh : MCMCModel.t criterion surrogate :=
  MCMCModel.Build 3%N
    [Surrogate 0 false 0; Surrogate 1 false 0; Surrogate 2 false 0]
    [Criterion 1 0 2 []; Criterion 1 0 2 []; Criterion 1 0 2 []].

Definition resampled : MCMCModel.t criterion surrogate :=
  MCMCModel.Build 3%N
    [Surrogate 9 false 1; Surrogate 10 false 1; Surrogate 11 false 1]
    [Criterion 1 0 2 []; Criterion 1 0 2 []; Criterion 1 0 2 []].

(** No particle at all. *)
Definition none : MCMCModel.t criterion surrogate :=
  MCMCModel.Build 0%N [] [].

(** Two criteria present for a count of four. *)
Definition miscounted : MCMCModel.t criterion surrogate :=
  MCMCModel.Build 4%N []
    [Criterion 1 0 2 []; Criterion 3 0 2 []].

End Stub.

(** Criteria that can be broken: every call on a broken criterion
    throws and leaves it as it is; a sound one behaves as the
    [Stub.criterion] it wraps. *)
Module Faulty.

#[local] Existing Instance Stub.criteria.

Record criterion : Type := Criterion {
  inner : Stub.criterion;
  broken : bool
}.

Definition guard {A : Type} (c : criterion)
    (f : Stub.criterion -> outcome A * Stub.criterion)
    : outcome A * criterion :=
  if broken c
  then (Throws (StdException "criterion failed"), c)
  else let (o, s) := f (inner c) in (o, Criterion s false).

#[export] Instance criteria : Criteria.t criterion := {|
  Criteria.evaluate c query :=
    guard c (fun s => Criteria.evaluate s query);
  Criteria.update c query :=
    guard c (fun s => Criteria.update s query);
  Criteria.requireComparison c :=
    guard c Criteria.requireComparison;
  Criteria.initialCriteria c :=
    guard c Criteria.initialCriteria;
  Criteria.pushResult c r :=
    guard c (fun s => Criteria.pushResult s r);
  Criteria.rotateCriteria c :=
    guard c Criteria.rotateCriteria;
  Criteria.getBestCriteria c best :=
    guard c (fun s => Criteria.getBestCriteria s best)
|}.

Definition active (c : criterion) : nat := Stub.active (inner c).

Definition sound (constant : float) : criterion :=
  Criterion (Stub.Criterion constant 0 2 []) false.

Definition unsound (constant : float) : criterion :=
  Criterion (Stub.Criterion constant 0 2 []) true.

(** Three particles; the criterion of particle 1 is broken. *)
Definition second_broken : MCMCModel.t criterion Stub.surrogate :=
  MCMCModel.Build 3%N
    [Stub.Surrogate 0 false 0; Stub.Surrogate 1 false 0;
     Stub.Surrogate 2 false 0]
    [sound 1; unsound 2; sound 3].

(** Three particles; the criterion of particle 0 is broken. *)
Definition first_broken : MCMCModel.t criterion Stub.surrogate :=
  MCMCModel.Build 3%N
    [Stub.Surrogate 0 false 0; Stub.Surrogate 1 false 0;
     Stub.Surrogate 2 false 0]
    [unsound 1; sound 2; sound 3].

End Faulty.

(** Criteria that rotate by reward: a criterion moves to the next
    acquisition function only when results have been pushed to it
    since its last rotation, and tells whether it moved. *)
Module RewardDriven.

Record criterion : Type := Criterion {
  active : nat;
  rewards : list vectord
}.

#[export] Instance criteria : Criteria.t criterion := {|
  Criteria.evaluate c _ := (Returns 0%float, c);
  Criteria.update c _ := (Returns tt, c);
  Criteria.requireComparison c := (Returns true, c);
  Criteria.initialCriteria c := (Returns tt, Criterion 0 []);
  Criteria.pushResult c r :=
    (Returns tt, Criterion (active c) (rewards c ++ [r]));
  Criteria.rotateCriteria c :=
    match rewards c with
    | [] => (Returns false, c)
    | _ :: _ => (Returns true, Criterion (S (active c)) [])
    end;
  Criteria.getBestCriteria c best := (Returns ("reward"%string, best), c)
|}.

(** Two particles whose criteria have been rotated on their own. *)
Definition two : MCMCModel.t criterion Stub.surrogate :=
  MCMCModel.Build 2%N
    [Stub.Surrogate 0 false 0; Stub.Surrogate 1 false 0]
    [Criterion 3 [[1%float]]; Criterion 5 []].

End RewardDriven.

(** Criteria that rotate by index, one step at a time, and whose
    rotation throws once, after the step, while [fuse] is set. *)
Module Flaky.

Record criterion : Type := Criterion {
  active : nat;
  fuse : bool
}.

#[export] Instance criteria : Criteria.t criterion := {|
  Criteria.evaluate c _ := (Returns 0%float, c);
  Criteria.update c _ := (Returns tt, c);
  Criteria.requireComparison c := (Returns true, c);
  Criteria.initialCriteria c := (Returns tt, Criterion 0 (fuse c));
  Criteria.pushResult c _ := (Returns tt, c);
  Criteria.rotateCriteria c :=
    if fuse c
    then (Throws (StdException "rotation failed"),
          Criterion (S (active c)) false)
    else (Returns true, Criterion (S (active c)) false);
  Criteria.getBestCriteria c best := (Returns ("flaky"%string, best), c)
|}.

(** Three particles on index 0; the rotation of particle 1 will throw
    once. *)
Definition three : MCMCModel.t criterion Stub.surrogate :=
  MCMCModel.Build 3%N
    [Stub.Surrogate 0 false 0; Stub.Surrogate 1 false 0;
     Stub.Surrogate 2 false 0]
    [Criterion 0 false; Criterion 0 true; Criterion 0 false].

End Flaky.

(** The member function [f] has defined behaviour on every object. *)
Definition defined {T B : Type} (f : T -> outcome B * T) : Prop :=
  forall x, (f x).1 <> Undefined.

(** * Properties *)

(** ** Loops *)

Section ForEach.

Context {T A B : Type}.
Variables (f : T -> outcome B * T) (g : A -> B -> A) (ev : nat -> call).

Lemma for_each_length i acc v :
  length (for_each f g ev i acc v).1.2 = length v.
Proof.
  revert i acc.
  induction v as [|x v IH]; intros i acc; simpl; [reflexivity|].
  destruct (f x) as [[y|e|] x']; simpl; try reflexivity.
  specialize (IH (S i) (g acc y)).
  destruct (for_each f g ev (S i) (g acc y) v) as [[o w] tr].
  simpl in *. now rewrite IH.
Qed.

(** When every call returns, the loop folds the returned values from
    the left, leaves every element as its call left it, and has made
    one call per element, in index order. *)
Lemma for_each_returns v ys :
  Forall2 (yields f) v ys ->
  forall i acc,
    for_each f g ev i acc v =
    (Returns (fold_left g ys acc), left_by f <$> v,
     ev <$> seq i (length v)).
Proof.
  unfold yields, left_by.
  induction 1 as [|x y v ys Hx _ IH]; intros i acc; simpl; [reflexivity|].
  destruct (f x) as [o x']. simpl in Hx. subst o.
  now rewrite IH.
Qed.

(** The loop ends at the first call that throws: the elements before
    it have been called, the elements after it are untouched. *)
Lemma for_each_throws pre ys x e post :
  Forall2 (yields f) pre ys ->
  (f x).1 = Throws e ->
  forall i acc,
    for_each f g ev i acc (pre ++ x :: post) =
    (Throws e, (left_by f <$> pre) ++ left_by f x :: post,
     ev <$> seq i (S (length pre))).
Proof.
  unfold yields, left_by. intros Hpre Hx.
  induction Hpre as [|x0 y v ys Hx0 _ IH]; intros i acc; simpl.
  - destruct (f x) as [o x']. simpl in Hx. now subst o.
  - destruct (f x0) as [o x0']. simpl in Hx0. subst o.
    now rewrite IH.
Qed.

(** A loop that returns has had every call return. *)
Lemma for_each_returns_inv v :
  forall i acc a,
    (for_each f g ev i acc v).1.1 = Returns a ->
    exists ys, Forall2 (yields f) v ys /\ a = fold_left g ys acc.
Proof.
  unfold yields.
  induction v as [|x v IH]; intros i acc a; simpl.
  - intros [= <-]. exists []. split; [constructor | reflexivity].
  - destruct (f x) as [[y|e|] x'] eqn:Hfx; simpl; try discriminate.
    destruct (for_each f g ev (S i) (g acc y) v) as [[o w] tr] eqn:Hloop.
    simpl. intros ->.
    destruct (IH (S i) (g acc y) a) as (ys & Hys & ->);
      [now rewrite Hloop|].
    exists (y :: ys). split; [|reflexivity].
    constructor; [now rewrite Hfx | exact Hys].
Qed.

(** The calls of the loop are made on consecutive indices, from the
    first. *)
Lemma for_each_trace_seq i acc v :
  exists k, k <= length v /\ (for_each f g ev i acc v).2 = ev <$> seq i k.
Proof.
  revert i acc.
  induction v as [|x v IH]; intros i acc; simpl.
  - exists 0. split; [lia | reflexivity].
  - destruct (f x) as [[y|e|] x']; simpl;
      try (exists 1; split; [lia | reflexivity]).
    destruct (IH (S i) (g acc y)) as (k & Hk & Htr).
    destruct (for_each f g ev (S i) (g acc y) v) as [[o w] tr].
    simpl in *. subst tr. exists (S k). split; [lia | reflexivity].
Qed.

(** Every call of the loop is a call [ev j]. *)
Lemma for_each_trace_ev i acc v :
  Forall (fun c => exists j, c = ev j) (for_each f g ev i acc v).2.
Proof.
  revert i acc.
  induction v as [|x v IH]; intros i acc; simpl; [constructor|].
  destruct (f x) as [[y|e|] x']; simpl;
    try (constructor; [now exists i | constructor]).
  specialize (IH (S i) (g acc y)).
  destruct (for_each f g ev (S i) (g acc y) v) as [[o w] tr].
  simpl in *. constructor; [now exists i | exact IH].
Qed.

End ForEach.

(** [for (..) last = y;] keeps the last value assigned. *)
Lemma fold_left_assign {B : Type} (ys : list B) (acc : option B) :
  fold_left (fun _ y => Some y) ys acc =
  match last ys with Some y => Some y | None => acc end.
Proof.
  revert acc. induction ys as [|y ys IH]; intros acc; [reflexivity|].
  simpl fold_left. rewrite IH, last_cons. now destruct (last ys).
Qed.

(** Calls that return on every element. *)
Lemma Forall2_yields_total {T B : Type} (f : T -> outcome B * T) :
  (forall x, exists y, yields f x y) ->
  forall v, exists ys, Forall2 (yields f) v ys.
Proof.
  intros Htotal. induction v as [|x v [ys IH]].
  - exists []. constructor.
  - destruct (Htotal x) as [y Hy]. exists (y :: ys). now constructor.
Qed.

(** Calls that all return [void] normally. *)
Lemma Forall2_yields_tt {T : Type} (f : T -> outcome unit * T) (v : list T) :
  Forall (fun x => yields f x tt) v ->
  Forall2 (yields f) v (replicate (length v) tt).
Proof. induction 1; simpl; constructor; assumption. Qed.

(** ** The inline member functions *)

Section Ensemble.

Import MCMCModel.
Context {Crit GP Dist : Type}.
Context `{!Criteria.t Crit} `{!NonParametricProcess.t GP Dist}.
Implicit Types (m : MCMCModel.t Crit GP) (query best : vectord).

(** A loop over one collection leaves the other and the count alone. *)
Lemma for_gp_frame {A B} name (f : GP -> outcome B * GP) (g : A -> B -> A)
    acc m :
  let r := for_gp name f g acc m in
  mCrit (state r) = mCrit m /\
  nParticles (state r) = nParticles m /\
  length (mGP (state r)) = length (mGP m) /\
  Forall (fun c => exists i, c = OnGP i name) (trace r).
Proof.
  unfold for_gp.
  pose proof (for_each_length f g (fun i => OnGP i name) 0 acc (mGP m))
    as Hlen.
  pose proof (for_each_trace_ev f g (fun i => OnGP i name) 0 acc (mGP m))
    as Htr.
  destruct (for_each f g _ 0 acc (mGP m)) as [[o w] tr].
  simpl in *. auto.
Qed.

Lemma for_crit_frame {A B} name (f : Crit -> outcome B * Crit)
    (g : A -> B -> A) acc m :
  let r := for_crit name f g acc m in
  mGP (state r) = mGP m /\
  nParticles (state r) = nParticles m /\
  length (mCrit (state r)) = length (mCrit m) /\
  Forall (fun c => exists i, c = OnCrit i name) (trace r).
Proof.
  unfold for_crit.
  pose proof (for_each_length f g (fun i => OnCrit i name) 0 acc (mCrit m))
    as Hlen.
  pose proof (for_each_trace_ev f g (fun i => OnCrit i name) 0 acc (mCrit m))
    as Htr.
  destruct (for_each f g _ 0 acc (mCrit m)) as [[o w] tr].
  simpl in *. auto.
Qed.

(** [evaluateCriteria] when every evaluation returns: the sum of the
    evaluations, divided by the data member [nParticles]. *)
Lemma evaluateCriteria_returns query m ys :
  Forall2 (yields (fun c => Criteria.evaluate c query)) (mCrit m) ys ->
  evaluateCriteria query m =
  Ran (Returns (PrimFloat.div (sum ys) (double_of_size_t (nParticles m))))
      (with_mCrit
         (left_by (fun c => Criteria.evaluate c query) <$> mCrit m) m)
      ((fun i => OnCrit i (Evaluate query)) <$> seq 0 (length (mCrit m))).
Proof.
  intros Hys. unfold evaluateCriteria, bind, for_crit.
  rewrite (for_each_returns _ _ _ _ _ Hys). simpl.
  now rewrite !app_nil_r.
Qed.

(** C1. For an ensemble of [nParticles >= 1] particles, each with
    its criterion, [evaluateCriteria(q)] returns the arithmetic mean
    of the evaluations [Criteria[i].evaluate(q)], their sum divided
    by [nParticles]; so when the criterion of particle [i] evaluates
    to the constant [c_i] at every query, [evaluateCriteria(q)] is
    [mean c] at every [q].  The mean is taken in [double]: the
    evaluations are added from the left. *)
Theorem evaluateCriteria_mean m :
  (1 <= nParticles m)%N ->
  length (mCrit m) = N.to_nat (nParticles m) ->
  (forall query ys,
      Forall2 (yields (fun c => Criteria.evaluate c query)) (mCrit m) ys ->
      result (evaluateCriteria query m) = Returns (mean ys)) /\
  (forall cs,
      (forall query,
          Forall2 (yields (fun c => Criteria.evaluate c query)) (mCrit m) cs) ->
      forall query, result (evaluateCriteria query m) = Returns (mean cs)).
Proof.
  intros _ Hcount.
  assert (Hmean : forall query ys,
    Forall2 (yields (fun c => Criteria.evaluate c query)) (mCrit m) ys ->
    result (evaluateCriteria query m) = Returns (mean ys)).
  { intros query ys Hys.
    rewrite (evaluateCriteria_returns _ _ _ Hys). simpl. unfold mean.
    apply Forall2_length in Hys.
    now rewrite <- Hys, Hcount, N2Nat.id. }
  split; [exact Hmean|].
  intros cs Hcs query. apply Hmean, Hcs.
Qed.

(** C9. [evaluateCriteria] divides the sum of the evaluations by the
    data member [nParticles], whatever the number of criteria
    present: nothing compares the two.  With no criterion and
    [nParticles = 0] the call does not throw: it returns
    [0.0 / 0.0], which is NaN, and has called nothing. *)
Theorem evaluateCriteria_unguarded query m ys :
  Forall2 (yields (fun c => Criteria.evaluate c query)) (mCrit m) ys ->
  result (evaluateCriteria query m) =
    Returns (PrimFloat.div (sum ys) (double_of_size_t (nParticles m))) /\
  (mCrit m = [] -> nParticles m = 0%N ->
   result (evaluateCriteria query m) = Returns (PrimFloat.div 0 0) /\
   PrimFloat.is_nan (PrimFloat.div 0 0) = true /\
   trace (evaluateCriteria query m) = []).
Proof.
  intros Hys. rewrite (evaluateCriteria_returns _ _ _ Hys). simpl.
  split; [reflexivity|].
  intros Hnil Hzero. rewrite Hnil in Hys. rewrite Hnil, Hzero.
  apply Forall2_nil_inv_l in Hys. subst ys.
  repeat split.
Qed.

(** C3. [criteriaRequiresComparison()], [getBestCriteria(best)] and
    [getPrediction(query)] depend on particle 0 only: on two
    ensembles whose criterion 0 and surrogate 0 agree, whatever the
    other particles are, they return the same result (for
    [getBestCriteria], the label and the value written to [best])
    and make the same calls. *)
Theorem delegates_to_particle_0 m1 m2 best query :
  mCrit m1 !! 0 = mCrit m2 !! 0 ->
  mGP m1 !! 0 = mGP m2 !! 0 ->
  (result (criteriaRequiresComparison m1) =
     result (criteriaRequiresComparison m2) /\
   trace (criteriaRequiresComparison m1) =
     trace (criteriaRequiresComparison m2)) /\
  (result (getBestCriteria best m1) = result (getBestCriteria best m2) /\
   trace (getBestCriteria best m1) = trace (getBestCriteria best m2)) /\
  (result (getPrediction query m1) = result (getPrediction query m2) /\
   trace (getPrediction query m1) = trace (getPrediction query m2)).
Proof.
  intros Hcrit Hgp.
  unfold criteriaRequiresComparison, getBestCriteria, getPrediction,
    crit_at, gp_at.
  rewrite Hcrit, Hgp.
  destruct (mCrit m2 !! 0) as [c|], (mGP m2 !! 0) as [g|]; simpl;
    repeat match goal with
           | |- context [let (_, _) := ?x in _] => destruct x
           end; simpl; auto.
Qed.

(** C10. [fitSurrogateModel()] and [updateSurrogateModel()] touch
    the surrogates only: after either call, however it ends, every
    criterion and [nParticles] are as before, and every call made
    was made on a surrogate. *)
Theorem surrogate_calls_frame m :
  (mCrit (state (fitSurrogateModel m)) = mCrit m /\
   nParticles (state (fitSurrogateModel m)) = nParticles m /\
   Forall (fun c => exists i, c = OnGP i FitSurrogateModel)
     (trace (fitSurrogateModel m))) /\
  (mCrit (state (updateSurrogateModel m)) = mCrit m /\
   nParticles (state (updateSurrogateModel m)) = nParticles m /\
   Forall (fun c => exists i, c = OnGP i UpdateSurrogateModel)
     (trace (updateSurrogateModel m))).
Proof.
  unfold fitSurrogateModel, updateSurrogateModel.
  split.
  - destruct (for_gp_frame FitSurrogateModel
                NonParametricProcess.fitSurrogateModel
                (fun _ _ => tt) tt m) as (? & ? & _ & ?); auto.
  - destruct (for_gp_frame UpdateSurrogateModel
                NonParametricProcess.updateSurrogateModel
                (fun _ _ => tt) tt m) as (? & ? & _ & ?); auto.
Qed.

(** The calls of [setNextCriterium], however it ends: none when
    there is no particle, else [pushResult] on criterion 0 and then
    [rotateCriteria] on the criteria 0, 1, ..., as far as the loop
    went. *)
Lemma setNextCriterium_trace prevResult m :
  trace (setNextCriterium prevResult m) = [] \/
  exists k, k <= length (mCrit m) /\
    trace (setNextCriterium prevResult m) =
      OnCrit 0 (PushResult prevResult) ::
      ((fun i => OnCrit i RotateCriteria) <$> seq 0 k).
Proof.
  unfold setNextCriterium, bind, crit_at.
  destruct (mCrit m !! 0) as [c0|]; [right | now left]. cbn beta.
  destruct (Criteria.pushResult c0 prevResult) as [[[]|e|] c0'];
    cbn [result state trace];
    try (exists 0; split; [lia | reflexivity]).
  unfold for_crit.
  destruct (for_each_trace_seq Criteria.rotateCriteria
              (fun _ b => Some b) (fun i => OnCrit i RotateCriteria)
              0 (@None bool)
              (mCrit (with_mCrit (<[0:=c0']> (mCrit m)) m)))
    as (k & Hk & Htr).
  destruct (for_each _ _ _ 0 None _) as [[o w] tr].
  simpl in Hk, Htr. rewrite length_insert in Hk. subst tr.
  exists k. split; [exact Hk|].
  destruct o as [[b|]|e|]; simpl; now rewrite ?app_nil_r.
Qed.

(** C2. [setNextCriterium(prevResult)] calls [pushResult(prevResult)]
    on criterion 0 only, at most once and before anything else, and
    [rotateCriteria()] on criteria in index order, however the calls
    end.  For an ensemble of [nParticles >= 1] particles, each with its
    criterion, and calls that return: it calls [pushResult(prevResult)]
    once, on criterion 0, then [rotateCriteria()] on every criterion in
    index order, and makes no other call; it returns what
    [rotateCriteria()] returned for the last particle, index
    [nParticles - 1].  Criterion 0 is rotated as [pushResult] left
    it. *)
Theorem setNextCriterium_calls prevResult m :
  (trace (setNextCriterium prevResult m) = [] \/
   exists k, k <= length (mCrit m) /\
     trace (setNextCriterium prevResult m) =
       OnCrit 0 (PushResult prevResult) ::
       ((fun i => OnCrit i RotateCriteria) <$> seq 0 k)) /\
  (forall c0 bs,
     (1 <= nParticles m)%N ->
     length (mCrit m) = N.to_nat (nParticles m) ->
     mCrit m !! 0 = Some c0 ->
     yields (fun c => Criteria.pushResult c prevResult) c0 tt ->
     Forall2 (yields Criteria.rotateCriteria)
       (<[0 := left_by (fun c => Criteria.pushResult c prevResult) c0]>
          (mCrit m)) bs ->
     trace (setNextCriterium prevResult m) =
       OnCrit 0 (PushResult prevResult) ::
       ((fun i => OnCrit i RotateCriteria) <$>
          seq 0 (N.to_nat (nParticles m))) /\
     (exists b, bs !! (N.to_nat (nParticles m) - 1) = Some b /\
                result (setNextCriterium prevResult m) = Returns b) /\
     mCrit (state (setNextCriterium prevResult m)) =
       (left_by Criteria.rotateCriteria <$>
          <[0 := left_by (fun c => Criteria.pushResult c prevResult) c0]>
            (mCrit m)) /\
     mGP (state (setNextCriterium prevResult m)) = mGP m).
Proof.
  split; [apply setNextCriterium_trace|].
  intros c0 bs Hn Hcount Hc0 Hpush Hbs.
  pose proof (Forall2_length _ _ _ Hbs) as Hlen.
  rewrite length_insert, Hcount in Hlen.
  unfold yields in Hpush. revert Hbs.
  unfold setNextCriterium, bind, crit_at, for_crit. rewrite Hc0.
  change (left_by (fun c => Criteria.pushResult c prevResult) c0)
    with (Criteria.pushResult c0 prevResult).2.
  destruct (Criteria.pushResult c0 prevResult) as [o c0']. simpl in *.
  subst o. intros Hbs. simpl.
  rewrite (for_each_returns _ _ _ _ _ Hbs). simpl.
  rewrite fold_left_assign, last_lookup, <- Hlen, Nat.sub_1_r.
  rewrite length_insert, Hcount.
  destruct (bs !! pred (N.to_nat (nParticles m))) as [b|] eqn:Hlast.
  - simpl. rewrite app_nil_r. eauto 6.
  - apply lookup_ge_None in Hlast. lia.
Qed.

(** A loop over the surrogates ends at the first surrogate whose
    call throws, with what that call threw. *)
Lemma for_gp_throws name (f : GP -> outcome unit * GP) m k x e :
  mGP m !! k = Some x ->
  (forall j x', j < k -> mGP m !! j = Some x' -> yields f x' tt) ->
  (f x).1 = Throws e ->
  for_gp name f (fun _ _ => tt) tt m =
  Ran (Throws e)
      (with_mGP ((left_by f <$> take k (mGP m)) ++
                 left_by f x :: drop (S k) (mGP m)) m)
      ((fun i => OnGP i name) <$> seq 0 (S k)).
Proof.
  intros Hk Hbefore Hx. unfold for_gp.
  assert (Hpre : Forall (fun x' => yields f x' tt) (take k (mGP m))).
  { apply Forall_lookup. intros j x' Hj.
    apply lookup_take_Some in Hj as [Hj Hlt]. eauto. }
  apply Forall2_yields_tt in Hpre.
  rewrite <- (take_drop_middle _ _ _ Hk) at 1.
  rewrite (for_each_throws _ _ _ _ _ _ _ _ Hpre Hx).
  rewrite length_take_le; [reflexivity|].
  apply lookup_lt_Some in Hk. lia.
Qed.

(** A loop over the surrogates that returns has had every call
    return. *)
Lemma for_gp_returns_inv name (f : GP -> outcome unit * GP) m :
  result (for_gp name f (fun _ _ => tt) tt m) = Returns tt ->
  Forall (fun x => yields f x tt) (mGP m).
Proof.
  unfold for_gp.
  pose proof (for_each_returns_inv f (fun _ _ => tt)
                (fun i => OnGP i name) (mGP m) 0 tt tt) as Hinv.
  destruct (for_each f _ _ 0 tt (mGP m)) as [[o w] tr]. simpl in *.
  intros Ho. destruct (Hinv Ho) as (ys & Hys & _).
  clear - Hys. induction Hys as [|x [] v ys Hx _ IH]; constructor; auto.
Qed.

(** C5, as the header has it.  When the fit (or update) of a
    surrogate throws, [fitSurrogateModel()] (or
    [updateSurrogateModel()]) ends at the first such particle [k] and
    throws what that particle threw, unchanged: the exception is not
    wrapped and carries no particle index.  The particles before [k]
    have been fitted, the particles after it have not been called,
    and no particle has been removed.  The call returns normally only
    when the call on every particle did. *)
Theorem surrogate_failure_propagates m k g e :
  mGP m !! k = Some g ->
  ((forall j g', j < k -> mGP m !! j = Some g' ->
      yields NonParametricProcess.fitSurrogateModel g' tt) ->
   (NonParametricProcess.fitSurrogateModel g).1 = Throws e ->
   fitSurrogateModel m =
     Ran (Throws e)
       (with_mGP
          ((left_by NonParametricProcess.fitSurrogateModel <$>
              take k (mGP m)) ++
           left_by NonParametricProcess.fitSurrogateModel g ::
           drop (S k) (mGP m)) m)
       ((fun i => OnGP i FitSurrogateModel) <$> seq 0 (S k)) /\
   length (mGP (state (fitSurrogateModel m))) = length (mGP m)) /\
  ((forall j g', j < k -> mGP m !! j = Some g' ->
      yields NonParametricProcess.updateSurrogateModel g' tt) ->
   (NonParametricProcess.updateSurrogateModel g).1 = Throws e ->
   updateSurrogateModel m =
     Ran (Throws e)
       (with_mGP
          ((left_by NonParametricProcess.updateSurrogateModel <$>
              take k (mGP m)) ++
           left_by NonParametricProcess.updateSurrogateModel g ::
           drop (S k) (mGP m)) m)
       ((fun i => OnGP i UpdateSurrogateModel) <$> seq 0 (S k)) /\
   length (mGP (state (updateSurrogateModel m))) = length (mGP m)) /\
  (result (fitSurrogateModel m) = Returns tt ->
   Forall (fun g' => yields NonParametricProcess.fitSurrogateModel g' tt)
     (mGP m)) /\
  (result (updateSurrogateModel m) = Returns tt ->
   Forall (fun g' => yields NonParametricProcess.updateSurrogateModel g' tt)
     (mGP m)).
Proof.
  intros Hk. unfold fitSurrogateModel, updateSurrogateModel.
  repeat split.
  - now apply for_gp_throws.
  - apply for_gp_frame.
  - now apply for_gp_throws.
  - apply for_gp_frame.
  - apply for_gp_returns_inv.
  - apply for_gp_returns_inv.
Qed.

(** A loop over the criteria that returns has had every call return,
    and has left every criterion as its call left it. *)
Lemma for_crit_returns_inv {A B} name (f : Crit -> outcome B * Crit)
    (g : A -> B -> A) acc m a :
  result (for_crit name f g acc m) = Returns a ->
  exists ys,
    Forall2 (yields f) (mCrit m) ys /\
    a = fold_left g ys acc /\
    for_crit name f g acc m =
    Ran (Returns a) (with_mCrit (left_by f <$> mCrit m) m)
        ((fun i => OnCrit i name) <$> seq 0 (length (mCrit m))).
Proof.
  unfold for_crit. intros Ho.
  destruct (for_each_returns_inv f g (fun i => OnCrit i name)
              (mCrit m) 0 acc a) as (ys & Hys & ->).
  { destruct (for_each f g _ 0 acc (mCrit m)) as [[o w] tr]. exact Ho. }
  exists ys. repeat split; [exact Hys|].
  now rewrite (for_each_returns _ _ _ _ _ Hys).
Qed.

(** A returning [setNextCriterium]: [pushResult] returned on
    criterion 0, every rotation returned, and every criterion is left
    as its rotation left it. *)
Lemma setNextCriterium_returns_inv prevResult m b :
  result (setNextCriterium prevResult m) = Returns b ->
  exists c0 bs,
    mCrit m !! 0 = Some c0 /\
    yields (fun c => Criteria.pushResult c prevResult) c0 tt /\
    Forall2 (yields Criteria.rotateCriteria)
      (<[0 := left_by (fun c => Criteria.pushResult c prevResult) c0]>
         (mCrit m)) bs /\
    state (setNextCriterium prevResult m) =
    with_mCrit
      (left_by Criteria.rotateCriteria <$>
         <[0 := left_by (fun c => Criteria.pushResult c prevResult) c0]>
           (mCrit m)) m.
Proof.
  unfold setNextCriterium, bind, crit_at.
  destruct (mCrit m !! 0) as [c0|]; [|discriminate].
  destruct (Criteria.pushResult c0 prevResult) as [[[]|e|] c0'] eqn:Hpush;
    simpl; try discriminate.
  set (m1 := with_mCrit (<[0:=c0']> (mCrit m)) m).
  destruct (result (for_crit RotateCriteria Criteria.rotateCriteria
                      (fun _ b0 => Some b0) None m1)) as [rot|e|] eqn:Hrot;
    simpl; try discriminate.
  apply for_crit_returns_inv in Hrot as (bs & Hbs & _ & Heq).
  rewrite Heq. simpl.
  intros _. exists c0, bs.
  unfold yields at 1.
  change (left_by (fun c => Criteria.pushResult c prevResult) c0)
    with (Criteria.pushResult c0 prevResult).2.
  rewrite Hpush. simpl.
  repeat split; [exact Hbs|]. now destruct rot.
Qed.

(** With rotation driven by the index, a [setNextCriterium] that
    returns keeps the criteria synchronized. *)
Lemma setNextCriterium_synchronized activeIndex
    `{!IndexDrivenRotation activeIndex} prevResult m b :
  synchronized activeIndex m ->
  result (setNextCriterium prevResult m) = Returns b ->
  synchronized activeIndex (state (setNextCriterium prevResult m)).
Proof.
  intros Hsync Hret.
  apply setNextCriterium_returns_inv in Hret
    as (c0 & bs & Hc0 & Hpush & Hbs & ->).
  assert (Hpushed : forall i c,
    <[0 := left_by (fun c => Criteria.pushResult c prevResult) c0]>
      (mCrit m) !! i = Some c ->
    activeIndex c = activeIndex c0).
  { intros i c Hi.
    apply list_lookup_insert_Some in Hi as [(_ & <- & _)|[_ Hi]].
    - now apply pushResult_index.
    - exact (Hsync _ _ _ _ Hi Hc0). }
  intros i j ci cj. simpl. rewrite !list_lookup_fmap.
  destruct (_ !! i) as [ci0|] eqn:Hi; [|discriminate].
  destruct (_ !! j) as [cj0|] eqn:Hj; [|discriminate].
  intros [= <-] [= <-].
  destruct (Forall2_lookup_l _ _ _ _ _ Hbs Hi) as (bi & _ & Hbi).
  destruct (Forall2_lookup_l _ _ _ _ _ Hbs Hj) as (bj & _ & Hbj).
  apply (rotateCriteria_index ci0 cj0 bi bj Hbi Hbj).
  now rewrite (Hpushed _ _ Hi), (Hpushed _ _ Hj).
Qed.

(** When [pushResult] and [rotateCriteria] return on every
    criterion, [setNextCriterium] returns on every ensemble that has
    a particle, and leaves as many particles. *)
Lemma setNextCriterium_returns prevResult m :
  (forall c r, yields (fun c => Criteria.pushResult c r) c tt) ->
  (forall c, exists b, yields Criteria.rotateCriteria c b) ->
  mCrit m <> [] ->
  exists b,
    result (setNextCriterium prevResult m) = Returns b /\
    mCrit (state (setNextCriterium prevResult m)) <> [].
Proof.
  intros Hpush Hrot Hne.
  destruct (mCrit m) as [|c0 v] eqn:Hcrit; [congruence|].
  specialize (Hpush c0 prevResult). unfold yields in Hpush.
  destruct (Forall2_yields_total Criteria.rotateCriteria Hrot
              (<[0 := (Criteria.pushResult c0 prevResult).2]> (mCrit m)))
    as (bs & Hbs).
  pose proof (Forall2_length _ _ _ Hbs) as Hlen.
  rewrite length_insert, Hcrit in Hlen. simpl in Hlen.
  unfold setNextCriterium, bind, crit_at, for_crit. rewrite Hcrit.
  rewrite Hcrit in Hbs. cbn -[for_each] in *.
  destruct (Criteria.pushResult c0 prevResult) as [o c0'].
  cbn -[for_each] in *. subst o. cbn -[for_each].
  rewrite (for_each_returns _ _ _ _ _ Hbs). cbn -[for_each].
  rewrite fold_left_assign.
  destruct (last bs) as [b|] eqn:Hlast.
  - exists b. simpl. split; [reflexivity | discriminate].
  - apply last_None in Hlast. subst bs. discriminate.
Qed.

(** When [pushResult] and [rotateCriteria] return on every
    criterion, each of the consecutive calls returns. *)
Lemma setNextCriterium_each_returned rs :
  (forall c r, yields (fun c => Criteria.pushResult c r) c tt) ->
  (forall c, exists b, yields Criteria.rotateCriteria c b) ->
  forall m, mCrit m <> [] ->
  length (setNextCriterium_each rs m) = length rs /\
  Forall returned (setNextCriterium_each rs m).
Proof.
  intros Hpush Hrot.
  induction rs as [|r rs IH]; intros m Hne; cbn [setNextCriterium_each].
  - split; [reflexivity | constructor].
  - destruct (setNextCriterium_returns r m Hpush Hrot Hne)
      as (b & Hb & Hne').
    rewrite Hb. destruct (IH _ Hne') as (Hlen & Hall).
    split; [simpl; now rewrite Hlen|].
    constructor; [now exists b | exact Hall].
Qed.

(** As long as the consecutive calls return, each of them leaves the
    criteria synchronized. *)
Lemma setNextCriterium_each_synchronized activeIndex
    `{!IndexDrivenRotation activeIndex} rs :
  forall m n,
    synchronized activeIndex m ->
    Forall returned (take n (setNextCriterium_each rs m)) ->
    Forall (fun x => synchronized activeIndex (state x))
      (take n (setNextCriterium_each rs m)).
Proof.
  induction rs as [|r rs IH]; intros m n Hsync;
    cbn [setNextCriterium_each].
  - rewrite take_nil. constructor.
  - destruct n as [|n]; [constructor|]. rewrite !firstn_cons.
    intros Hall. apply Forall_cons in Hall as ((b & Hb) & Hall).
    rewrite Hb in Hall |- *.
    pose proof (setNextCriterium_synchronized activeIndex r m b Hsync Hb)
      as Hsync'.
    constructor; [exact Hsync' | exact (IH _ n Hsync' Hall)].
Qed.

(** C4, as the header has it.  With criteria whose rotation is driven
    by the active index alone, for every ensemble and every sequence
    [r_1], ..., [r_k]: after [setFirstCriterium()], and as long as the
    calls [setNextCriterium(r_j)] return, each call leaves criteria
    that all have the same active index.  The calls keep the criteria
    synchronized from any ensemble whose criteria are, and
    [setFirstCriterium()] makes them so.  When [pushResult] and
    [rotateCriteria] return on every criterion, each of the [k] calls
    returns. *)
Theorem criteria_stay_synchronized (activeIndex : Crit -> nat) :
  IndexDrivenRotation activeIndex ->
  (forall rs m n,
      result (setFirstCriterium m) = Returns tt ->
      Forall returned
        (take n (setNextCriterium_each rs (state (setFirstCriterium m)))) ->
      Forall (fun x => synchronized activeIndex (state x))
        (take n (setNextCriterium_each rs (state (setFirstCriterium m))))) /\
  (forall rs m n,
      synchronized activeIndex m ->
      Forall returned (take n (setNextCriterium_each rs m)) ->
      Forall (fun x => synchronized activeIndex (state x))
        (take n (setNextCriterium_each rs m))) /\
  (forall m,
      result (setFirstCriterium m) = Returns tt ->
      synchronized activeIndex (state (setFirstCriterium m))) /\
  ((forall c r, yields (fun c => Criteria.pushResult c r) c tt) ->
   (forall c, exists b, yields Criteria.rotateCriteria c b) ->
   forall rs m, 1 <= length (mCrit m) ->
     length (setNextCriterium_each rs m) = length rs /\
     Forall returned (setNextCriterium_each rs m)).
Proof.
  intros Hindex.
  assert (Hfirst : forall m,
    result (setFirstCriterium m) = Returns tt ->
    synchronized activeIndex (state (setFirstCriterium m))).
  { intros m Hret. unfold setFirstCriterium in *.
    apply for_crit_returns_inv in Hret as (ys & Hys & _ & ->).
    intros i j ci cj. simpl. rewrite !list_lookup_fmap.
    destruct (mCrit m !! i) as [ci0|] eqn:Hi; [|discriminate].
    destruct (mCrit m !! j) as [cj0|] eqn:Hj; [|discriminate].
    intros [= <-] [= <-].
    destruct (Forall2_lookup_l _ _ _ _ _ Hys Hi) as ([] & _ & Hyi).
    destruct (Forall2_lookup_l _ _ _ _ _ Hys Hj) as ([] & _ & Hyj).
    now apply initialCriteria_index. }
  split; [|split; [|split; [exact Hfirst|]]].
  - intros rs m n Hret.
    apply (setNextCriterium_each_synchronized activeIndex), Hfirst, Hret.
  - intros rs m n.
    apply (setNextCriterium_each_synchronized activeIndex).
  - intros Hpush Hrot rs m Hne.
    apply setNextCriterium_each_returned; auto.
    destruct (mCrit m); simpl in *; [lia | discriminate].
Qed.

(** *** No inline member function resizes a collection *)

Lemma same_shape_refl m : same_shape m m.
Proof. repeat split. Qed.

Lemma same_shape_trans m1 m2 m3 :
  same_shape m1 m2 -> same_shape m2 m3 -> same_shape m1 m3.
Proof. unfold same_shape. intros (-> & -> & ->) (-> & -> & ->). auto. Qed.

Lemma bind_shape {A B} (c : M Crit GP A) (k : A -> M Crit GP B) :
  (forall m, same_shape m (state (c m))) ->
  (forall a m, same_shape m (state (k a m))) ->
  forall m, same_shape m (state (bind c k m)).
Proof.
  intros Hc Hk m. unfold bind.
  destruct (result (c m)) as [a|e|]; simpl; try apply Hc.
  eapply same_shape_trans; [apply Hc | apply Hk].
Qed.

Lemma crit_at_shape {A} i name (f : Crit -> outcome A * Crit) m :
  same_shape m (state (crit_at i name f m)).
Proof.
  unfold crit_at. destruct (mCrit m !! i) as [c|]; [|apply same_shape_refl].
  destruct (f c) as [o c']. repeat split. simpl. apply length_insert.
Qed.

Lemma gp_at_shape {A} i name (f : GP -> outcome A * GP) m :
  same_shape m (state (gp_at i name f m)).
Proof.
  unfold gp_at. destruct (mGP m !! i) as [g|]; [|apply same_shape_refl].
  destruct (f g) as [o g']. repeat split. simpl. apply length_insert.
Qed.

Lemma for_crit_shape {A B} name (f : Crit -> outcome B * Crit)
    (g : A -> B -> A) acc m :
  same_shape m (state (for_crit name f g acc m)).
Proof.
  destruct (for_crit_frame name f g acc m) as (Hgp & Hn & Hlen & _).
  repeat split; [exact Hn | now rewrite Hgp | exact Hlen].
Qed.

Lemma for_gp_shape {A B} name (f : GP -> outcome B * GP)
    (g : A -> B -> A) acc m :
  same_shape m (state (for_gp name f g acc m)).
Proof.
  destruct (for_gp_frame name f g acc m) as (Hcrit & Hn & Hlen & _).
  repeat split; [exact Hn | exact Hlen | now rewrite Hcrit].
Qed.

Lemma evaluateCriteria_shape query m :
  same_shape m (state (evaluateCriteria query m)).
Proof.
  apply bind_shape; [intros; apply for_crit_shape|].
  intros sum m'. apply bind_shape; intros; apply same_shape_refl.
Qed.

Lemma setNextCriterium_shape prevResult m :
  same_shape m (state (setNextCriterium prevResult m)).
Proof.
  apply bind_shape; [intros; apply crit_at_shape|].
  intros _ m'. apply bind_shape; [intros; apply for_crit_shape|].
  intros [b|] m''; apply same_shape_refl.
Qed.

End Ensemble.

(** ** Construction and resampling *)

Section Run.

Import MCMCModel Lifecycle.
Context {Config Eng Particle GP Crit Dist : Type}.
Context `{!Criteria.t Crit} `{!NonParametricProcess.t GP Dist}.
Context `{!Lifecycle.t Config Eng Particle GP Crit}.
Variables (dim : size_t) (params : Config).
Implicit Types (m : MCMCModel.t Crit GP) (eng : Eng).

(** What the particle-construction routine builds. *)
Lemma populate_slots n particles :
  slots_aligned params particles (populate params n particles) /\
  nParticles (populate params n particles) = n /\
  length (mGP (populate params n particles)) = length particles /\
  length (mCrit (populate params n particles)) = length particles.
Proof.
  unfold populate, slots_aligned. simpl.
  rewrite !length_fmap. split; [|auto].
  intros i p Hp. rewrite !list_lookup_fmap, Hp. now split.
Qed.

(** A call of an inline member function leaves the count and the
    lengths of both collections as they were. *)
Lemma perform_inline_shape op m m' :
  inline_operation op = true ->
  perform dim params op m = Some m' ->
  same_shape m m'.
Proof.
  destruct op; cbn [perform inline_operation]; try discriminate;
    intros _; unfold after;
    match goal with
    | |- context [result ?r] => destruct (result r)
    end; intros [= <-];
    first [ apply for_gp_shape | apply for_crit_shape
          | apply crit_at_shape | apply gp_at_shape
          | apply evaluateCriteria_shape | apply setNextCriterium_shape ].
Qed.

Lemma same_shape_particle_count m m' :
  same_shape m m' -> particle_count params m -> particle_count params m'.
Proof.
  unfold same_shape, particle_count.
  intros (-> & -> & ->) (? & ? & ?). auto.
Qed.

Section Sampler.

Context {contract : SamplerContract}.

Lemma construct_particle_count eng m :
  construct dim params eng = Returns m -> particle_count params m.
Proof.
  unfold construct.
  destruct (_ || _); [discriminate|]. intros [= <-].
  destruct (populate_slots (configured_nParticles params)
              (prior_particle dim params eng <$>
                 seq 0 (N.to_nat (configured_nParticles params))))
    as (_ & Hn & Hgp & Hcrit).
  unfold particle_count.
  rewrite Hn, Hgp, Hcrit, length_fmap, length_seq. auto.
Qed.

Lemma updateHyperParameters_particle_count eng m :
  particle_count params m ->
  particle_count params (state (updateHyperParameters dim params eng m)).
Proof.
  intros Hm. unfold updateHyperParameters.
  destruct (_ || _); [exact Hm|].
  destruct (sample dim params eng) as [particles|e|] eqn:Hsample;
    simpl; try exact Hm.
  apply sample_length in Hsample.
  destruct (populate_slots (nParticles m) particles)
    as (_ & Hn & Hgp & Hcrit).
  destruct Hm as (Hm & _).
  unfold particle_count. rewrite Hn, Hgp, Hcrit, Hsample, Hm. auto.
Qed.

Lemma reachable_particle_count m :
  reachable dim params m -> particle_count params m.
Proof.
  induction 1 as [eng m Hnew | op m m' _ IH Hcall].
  - exact (construct_particle_count eng m Hnew).
  - destruct (inline_operation op) eqn:Hop.
    + exact (same_shape_particle_count m m'
               (perform_inline_shape op m m' Hop Hcall) IH).
    + destruct op; try discriminate. simpl in Hcall.
      unfold after in Hcall.
      pose proof (updateHyperParameters_particle_count eng m IH) as Hupd.
      destruct (result (updateHyperParameters dim params eng m));
        now inversion Hcall; subst.
Qed.

(** C6. With a sampler that yields [nParticles] particles: the
    ensemble the constructor returns, and every ensemble left by a
    call afterwards ([updateHyperParameters()] included), has
    exactly [nParticles] surrogates and [nParticles] criteria,
    [nParticles] being the count computed from the configuration at
    construction.  After construction and after a successful
    [updateHyperParameters()], slot [i] of both collections comes
    from particle [i].  No inline member function changes the count
    or the length of a collection, however it ends. *)
Theorem particle_collections_invariant :
  (forall m, reachable dim params m -> particle_count params m) /\
  (forall eng m,
      construct dim params eng = Returns m ->
      particle_count params m /\
      slots_aligned params
        (prior_particle dim params eng <$>
           seq 0 (N.to_nat (configured_nParticles params))) m) /\
  (forall eng m,
      reachable dim params m ->
      result (updateHyperParameters dim params eng m) = Returns tt ->
      exists particles,
        sample dim params eng = Returns particles /\
        particle_count params
          (state (updateHyperParameters dim params eng m)) /\
        slots_aligned params particles
          (state (updateHyperParameters dim params eng m))) /\
  (forall op m m',
      inline_operation op = true ->
      perform dim params op m = Some m' ->
      same_shape m m').
Proof.
  split; [exact reachable_particle_count|].
  split; [|split; [|exact perform_inline_shape]].
  - intros eng m Hnew. split; [now apply (construct_particle_count eng)|].
    unfold construct in Hnew.
    destruct (_ || _); [discriminate|]. injection Hnew as <-.
    apply populate_slots.
  - intros eng m Hm Hret.
    pose proof (updateHyperParameters_particle_count eng m
                  (reachable_particle_count m Hm)) as Hcount.
    revert Hret Hcount. unfold updateHyperParameters.
    destruct (_ || _); [discriminate|].
    destruct (sample dim params eng) as [particles|e|];
      simpl; try discriminate.
    intros _ Hcount. exists particles.
    split; [reflexivity|]. split; [exact Hcount|].
    apply populate_slots.
Qed.

End Sampler.

(** C7. [updateHyperParameters()] throws [ConfigurationError] when
    [nParticles] is 0 or the dimension is not valid; it does not
    return normally, and leaves the ensemble as it was. *)
Theorem updateHyperParameters_rejects eng m :
  nParticles m = 0%N \/ valid_dimension dim = false ->
  result (updateHyperParameters dim params eng m) =
    Throws ConfigurationError /\
  result (updateHyperParameters dim params eng m) <> Returns tt /\
  state (updateHyperParameters dim params eng m) = m.
Proof.
  intros Hbad. unfold updateHyperParameters.
  assert (Hguard :
    (nParticles m =? 0)%N || negb (valid_dimension dim) = true).
  { destruct Hbad as [-> | ->]; [reflexivity | apply orb_true_r]. }
  rewrite Hguard. simpl. repeat split. discriminate.
Qed.

End Run.

(** ** Scenarios on the test doubles *)

Section Scenarios.

Import MCMCModel Stub.

(** Three criteria that evaluate to 1, 2 and 3: the mean is 2. *)
Lemma evaluateCriteria_mean_witness :
  (1 <= nParticles three)%N /\
  result (evaluateCriteria [0.5%float] three) = Returns 2%float.
Proof.
  split; [simpl; lia|].
  apply (proj1 (evaluateCriteria_mean three ltac:(simpl; lia) eq_refl)
           [0.5%float] [1%float; 2%float; 3%float]).
  repeat constructor.
Defined.

(** One push on particle 0, three rotations, and the outcome of the
    rotation of particle 2. *)
Lemma setNextCriterium_calls_witness :
  trace (setNextCriterium [0.5%float] three) =
    [OnCrit 0 (PushResult [0.5%float]); OnCrit 0 RotateCriteria;
     OnCrit 1 RotateCriteria; OnCrit 2 RotateCriteria] /\
  result (setNextCriterium [0.5%float] three) = Returns true.
Proof.
  destruct (proj2 (setNextCriterium_calls [0.5%float] three)
              (Criterion 1 0 2 []) [true; true; true]
              ltac:(simpl; lia) eq_refl eq_refl eq_refl
              ltac:(repeat constructor))
    as (Htrace & (b & Hb & Hresult) & _).
  split; [exact Htrace|].
  injection Hb as <-. exact Hresult.
Defined.

(** [three] and [diverged] agree on particle 0 only. *)
Lemma delegates_to_particle_0_witness :
  mCrit three !! 1 <> mCrit diverged !! 1 /\
  result (criteriaRequiresComparison three) =
    result (criteriaRequiresComparison diverged) /\
  result (getBestCriteria [] three) = result (getBestCriteria [] diverged) /\
  result (getPrediction [] three) = result (getPrediction [] diverged).
Proof.
  split; [discriminate|].
  destruct (delegates_to_particle_0 three diverged [] [] eq_refl eq_refl)
    as ((H1 & _) & (H2 & _) & (H3 & _)).
  auto.
Defined.

(** Three calls on [three]: each returns, and leaves the three
    criteria on the same active index. *)
Lemma criteria_stay_synchronized_witness :
  result <$> setNextCriterium_each [[0.5%float]; []; [1%float]] three =
    [Returns true; Returns false; Returns false] /\
  Forall (fun x => synchronized active (state x))
    (take 3 (setNextCriterium_each [[0.5%float]; []; [1%float]] three)).
Proof.
  assert (Hindex : IndexDrivenRotation active).
  { split; unfold yields, left_by; intros; simpl in *; congruence. }
  split; [reflexivity|].
  apply (proj1 (proj2 (criteria_stay_synchronized active Hindex))).
  - intros [|[|[|i]]] [|[|[|j]]] ci cj; simpl;
      intros [= <-] [= <-]; reflexivity.
  - repeat constructor; eexists; reflexivity.
Defined.

(** Particle 2 of [five] is singular: the call throws what the
    particle threw, after fitting particles 0 and 1. *)
Lemma surrogate_failure_propagates_witness :
  result (fitSurrogateModel five) =
    Throws (StdException "singular covariance") /\
  fits <$> mGP (state (fitSurrogateModel five)) = [1; 1; 0; 0; 0] /\
  trace (fitSurrogateModel five) =
    [OnGP 0 FitSurrogateModel; OnGP 1 FitSurrogateModel;
     OnGP 2 FitSurrogateModel].
Proof.
  assert (Hbefore : forall j g', j < 2 -> mGP five !! j = Some g' ->
            yields NonParametricProcess.fitSurrogateModel g' tt).
  { intros [|[|j]] g' Hlt; simpl; [intros [= <-]; reflexivity..|lia]. }
  destruct (proj1 (surrogate_failure_propagates five 2 (Surrogate 2 true 0)
                     (StdException "singular covariance") eq_refl)
              Hbefore eq_refl) as [Hfit _].
  rewrite Hfit. repeat split.
Defined.

(** C5 as stated fails on [five]: the fit of particle 2 throws, and
    the call does not throw a [SurrogateFitError] naming particle 2
    (nor any other): it throws the exception of the surrogate. *)
Lemma surrogate_failure_unnamed :
  mGP five !! 2 = Some (Surrogate 2 true 0) /\
  (NonParametricProcess.fitSurrogateModel (Surrogate 2 true 0)).1 =
    Throws (StdException "singular covariance") /\
  result (fitSurrogateModel five) <> Throws (SurrogateFitError 2) /\
  result (updateSurrogateModel five) <> Throws (SurrogateFitError 2).
Proof. repeat split; discriminate. Qed.

(** Construction, a resampling and a fit with the stub sampler. *)
Lemma particle_collections_invariant_witness :
  Lifecycle.reachable 1%N 3%N resampled /\
  Lifecycle.particle_count 3%N resampled.
Proof.
  assert (Hcontract : Lifecycle.SamplerContract (Config := size_t)).
  { intros dim params eng ps [= <-]. apply length_seq. }
  assert (Hreach : Lifecycle.reachable 1%N 3%N resampled).
  { apply (Lifecycle.reachable_call 1%N 3%N
             Lifecycle.CallFitSurrogateModel
             (state (Lifecycle.updateHyperParameters 1%N 3%N 9 fresh)));
      [|reflexivity].
    apply (Lifecycle.reachable_call 1%N 3%N
             (Lifecycle.CallUpdateHyperParameters 9) fresh);
      [|reflexivity].
    now apply (Lifecycle.reachable_new 1%N 3%N 7). }
  split; [exact Hreach|].
  exact (proj1 (particle_collections_invariant (contract := Hcontract)
                  1%N 3%N) resampled Hreach).
Defined.

(** With no particle, [updateHyperParameters()] throws. *)
Lemma updateHyperParameters_rejects_witness :
  nParticles none = 0%N /\
  result (Lifecycle.updateHyperParameters 1%N 0%N 7 none) =
    Throws ConfigurationError.
Proof.
  split; [reflexivity|].
  exact (proj1 (updateHyperParameters_rejects 1%N 0%N 7 none
                  (or_introl eq_refl))).
Defined.

(** With no particle the result is NaN; with two criteria for a
    count of four it is the sum over four, not the mean of the two. *)
Lemma evaluateCriteria_unguarded_witness :
  result (evaluateCriteria [] none) = Returns nan /\
  result (evaluateCriteria [] miscounted) = Returns 1%float /\
  mean [1%float; 3%float] = 2%float.
Proof.
  split; [|split; [|reflexivity]].
  - apply (proj2 (evaluateCriteria_unguarded [] none []
                    ltac:(constructor)) eq_refl eq_refl).
  - apply (proj1 (evaluateCriteria_unguarded [] miscounted
                    [1%float; 3%float] ltac:(repeat constructor))).
Defined.

End Scenarios.


(** * Further properties of the inline member functions *)

(** ** Loops that do not return *)

Section ForEachEnds.

Context {T A B : Type}.
Variables (f : T -> outcome B * T) (g : A -> B -> A) (ev : nat -> call).

(** A loop throws only what the call on one of its elements threw. *)
Lemma for_each_throws_inv v :
  forall i acc e,
    (for_each f g ev i acc v).1.1 = Throws e ->
    exists k x, v !! k = Some x /\ (f x).1 = Throws e.
Proof.
  induction v as [|x v IH]; intros i acc e; simpl; [discriminate|].
  destruct (f x) as [[y|e'|] x'] eqn:Hfx; simpl; try discriminate.
  - destruct (for_each f g ev (S i) (g acc y) v) as [[o w] tr] eqn:Hloop.
    simpl. intros ->.
    destruct (IH (S i) (g acc y) e) as (k & x0 & Hk & Hx0);
      [now rewrite Hloop|].
    now exists (S k), x0.
  - intros [= <-]. exists 0, x. now rewrite Hfx.
Qed.

(** A loop has undefined behaviour only when the call on one of its
    elements has. *)
Lemma for_each_undefined_inv v :
  forall i acc,
    (for_each f g ev i acc v).1.1 = Undefined ->
    exists k x, v !! k = Some x /\ (f x).1 = Undefined.
Proof.
  induction v as [|x v IH]; intros i acc; simpl; [discriminate|].
  destruct (f x) as [[y|e'|] x'] eqn:Hfx; simpl; try discriminate.
  - destruct (for_each f g ev (S i) (g acc y) v) as [[o w] tr] eqn:Hloop.
    simpl. intros ->.
    destruct (IH (S i) (g acc y)) as (k & x0 & Hk & Hx0);
      [now rewrite Hloop|].
    now exists (S k), x0.
  - intros _. exists 0, x. now rewrite Hfx.
Qed.

End ForEachEnds.

(** The calls before index [k] all return [void]. *)
Lemma Forall2_yields_before {T : Type} (f : T -> outcome unit * T)
    (v : list T) (k : nat) :
  (forall j x, j < k -> v !! j = Some x -> yields f x tt) ->
  Forall2 (yields f) (take k v) (replicate (length (take k v)) tt).
Proof.
  intros Hbefore. apply Forall2_yields_tt, Forall_lookup.
  intros j x Hj. apply lookup_take_Some in Hj as [Hj Hlt]. eauto.
Qed.

Section Behaviour.

Import MCMCModel.
Context {Crit GP Dist : Type}.
Context `{!Criteria.t Crit} `{!NonParametricProcess.t GP Dist}.
Implicit Types (m : MCMCModel.t Crit GP) (query best : vectord).

(** *** The loops over a collection *)

Lemma for_crit_returns {A B} name (f : Crit -> outcome B * Crit)
    (g : A -> B -> A) acc m ys :
  Forall2 (yields f) (mCrit m) ys ->
  for_crit name f g acc m =
  Ran (Returns (fold_left g ys acc)) (with_mCrit (left_by f <$> mCrit m) m)
      ((fun i => OnCrit i name) <$> seq 0 (length (mCrit m))).
Proof.
  intros Hys. unfold for_crit.
  now rewrite (for_each_returns _ _ _ _ _ Hys).
Qed.

Lemma for_gp_returns {A B} name (f : GP -> outcome B * GP)
    (g : A -> B -> A) acc m ys :
  Forall2 (yields f) (mGP m) ys ->
  for_gp name f g acc m =
  Ran (Returns (fold_left g ys acc)) (with_mGP (left_by f <$> mGP m) m)
      ((fun i => OnGP i name) <$> seq 0 (length (mGP m))).
Proof.
  intros Hys. unfold for_gp.
  now rewrite (for_each_returns _ _ _ _ _ Hys).
Qed.

Lemma for_crit_throws {A B} name (f : Crit -> outcome B * Crit)
    (g : A -> B -> A) acc m k c e ys :
  mCrit m !! k = Some c ->
  Forall2 (yields f) (take k (mCrit m)) ys ->
  (f c).1 = Throws e ->
  for_crit name f g acc m =
  Ran (Throws e)
      (with_mCrit ((left_by f <$> take k (mCrit m)) ++
                   left_by f c :: drop (S k) (mCrit m)) m)
      ((fun i => OnCrit i name) <$> seq 0 (S k)).
Proof.
  intros Hk Hpre Hc. unfold for_crit.
  rewrite <- (take_drop_middle _ _ _ Hk) at 1.
  rewrite (for_each_throws _ _ _ _ _ _ _ _ Hpre Hc).
  rewrite length_take_le; [reflexivity|].
  apply lookup_lt_Some in Hk. lia.
Qed.

(** A loop of [void] calls over the criteria: what it does when every
    call returns, what it does when one throws, and when it returns. *)
Lemma for_crit_void name (f : Crit -> outcome unit * Crit) m :
  (Forall (fun c => yields f c tt) (mCrit m) ->
   for_crit name f (fun _ _ => tt) tt m =
   Ran (Returns tt) (with_mCrit (left_by f <$> mCrit m) m)
       ((fun i => OnCrit i name) <$> seq 0 (length (mCrit m)))) /\
  (forall k c e,
     mCrit m !! k = Some c ->
     (forall j c', j < k -> mCrit m !! j = Some c' -> yields f c' tt) ->
     (f c).1 = Throws e ->
     for_crit name f (fun _ _ => tt) tt m =
     Ran (Throws e)
         (with_mCrit ((left_by f <$> take k (mCrit m)) ++
                      left_by f c :: drop (S k) (mCrit m)) m)
         ((fun i => OnCrit i name) <$> seq 0 (S k))) /\
  (result (for_crit name f (fun _ _ => tt) tt m) = Returns tt ->
   Forall (fun c => yields f c tt) (mCrit m)).
Proof.
  split; [|split].
  - intros Hall. apply Forall2_yields_tt in Hall.
    rewrite (for_crit_returns _ _ _ _ _ _ Hall).
    f_equal. clear. now induction (length (mCrit m)).
  - intros k c e Hk Hbefore Hc.
    exact (for_crit_throws name f _ tt m k c e _ Hk
             (Forall2_yields_before f _ k Hbefore) Hc).
  - intros Hret.
    apply for_crit_returns_inv in Hret as (ys & Hys & _).
    clear - Hys. induction Hys as [|x [] v ys Hx _ IH]; constructor; auto.
Qed.

(** *** [updateCriteria] and [setFirstCriterium] *)

(** X1. [updateCriteria(query)] calls [update(query)] once on every
    criterion, in index order, and leaves each criterion as its call
    left it.  When the call on criterion [k] is the first to throw, the
    exception leaves [updateCriteria] unchanged, the criteria before
    [k] have been updated and the criteria after [k] have not been
    called.  It returns only when the call on every criterion did. *)
Theorem updateCriteria_each query m :
  (Forall (fun c => yields (fun c => Criteria.update c query) c tt)
     (mCrit m) ->
   updateCriteria query m =
   Ran (Returns tt)
       (with_mCrit (left_by (fun c => Criteria.update c query) <$> mCrit m) m)
       ((fun i => OnCrit i (Update query)) <$> seq 0 (length (mCrit m)))) /\
  (forall k c e,
     mCrit m !! k = Some c ->
     (forall j c', j < k -> mCrit m !! j = Some c' ->
        yields (fun c => Criteria.update c query) c' tt) ->
     (Criteria.update c query).1 = Throws e ->
     updateCriteria query m =
     Ran (Throws e)
         (with_mCrit
            ((left_by (fun c => Criteria.update c query) <$>
                take k (mCrit m)) ++
             left_by (fun c => Criteria.update c query) c ::
             drop (S k) (mCrit m)) m)
         ((fun i => OnCrit i (Update query)) <$> seq 0 (S k))) /\
  (result (updateCriteria query m) = Returns tt ->
   Forall (fun c => yields (fun c => Criteria.update c query) c tt)
     (mCrit m)).
Proof.
  exact (for_crit_void (Update query) (fun c => Criteria.update c query) m).
Qed.

(** X2. [setFirstCriterium()] calls [initialCriteria()] once on every
    criterion, in index order, and leaves each criterion as its call
    left it; with no criterion it returns without a call.  When the
    call on criterion [k] is the first to throw, the exception leaves
    [setFirstCriterium] unchanged, the criteria before [k] have been
    initialised and the criteria after [k] have not been called. *)
Theorem setFirstCriterium_each m :
  (Forall (fun c => yields Criteria.initialCriteria c tt) (mCrit m) ->
   setFirstCriterium m =
   Ran (Returns tt)
       (with_mCrit (left_by Criteria.initialCriteria <$> mCrit m) m)
       ((fun i => OnCrit i InitialCriteria) <$> seq 0 (length (mCrit m)))) /\
  (forall k c e,
     mCrit m !! k = Some c ->
     (forall j c', j < k -> mCrit m !! j = Some c' ->
        yields Criteria.initialCriteria c' tt) ->
     (Criteria.initialCriteria c).1 = Throws e ->
     setFirstCriterium m =
     Ran (Throws e)
         (with_mCrit
            ((left_by Criteria.initialCriteria <$> take k (mCrit m)) ++
             left_by Criteria.initialCriteria c :: drop (S k) (mCrit m)) m)
         ((fun i => OnCrit i InitialCriteria) <$> seq 0 (S k))) /\
  (result (setFirstCriterium m) = Returns tt ->
   Forall (fun c => yields Criteria.initialCriteria c tt) (mCrit m)).
Proof.
  exact (for_crit_void InitialCriteria Criteria.initialCriteria m).
Qed.

(** *** [evaluateCriteria] *)

(** X3. When the evaluation of criterion [k] is the first to throw,
    [evaluateCriteria(query)] throws that exception unchanged: nothing
    is divided, the criteria before [k] are as their evaluation left
    them and the criteria after [k] have not been evaluated. *)
Theorem evaluateCriteria_throws query m k c e ys :
  mCrit m !! k = Some c ->
  Forall2 (yields (fun c => Criteria.evaluate c query))
    (take k (mCrit m)) ys ->
  (Criteria.evaluate c query).1 = Throws e ->
  evaluateCriteria query m =
  Ran (Throws e)
      (with_mCrit
         ((left_by (fun c => Criteria.evaluate c query) <$>
             take k (mCrit m)) ++
          left_by (fun c => Criteria.evaluate c query) c ::
          drop (S k) (mCrit m)) m)
      ((fun i => OnCrit i (Evaluate query)) <$> seq 0 (S k)).
Proof.
  intros Hk Hpre Hc. unfold evaluateCriteria, bind.
  now rewrite (for_crit_throws _ _ _ _ _ _ _ _ _ Hk Hpre Hc).
Qed.

(** X5. When the evaluations return, [evaluateCriteria(query)] has
    evaluated every criterion once, in index order, has left each
    criterion as its own evaluation left it and [nParticles] as it
    was; so criteria that their evaluation does not change are all
    left unchanged. *)
Theorem evaluateCriteria_each query m ys :
  Forall2 (yields (fun c => Criteria.evaluate c query)) (mCrit m) ys ->
  trace (evaluateCriteria query m) =
    ((fun i => OnCrit i (Evaluate query)) <$> seq 0 (length (mCrit m))) /\
  mCrit (state (evaluateCriteria query m)) =
    (left_by (fun c => Criteria.evaluate c query) <$> mCrit m) /\
  nParticles (state (evaluateCriteria query m)) = nParticles m /\
  (Forall (fun c => left_by (fun c => Criteria.evaluate c query) c = c)
     (mCrit m) ->
   mCrit (state (evaluateCriteria query m)) = mCrit m).
Proof.
  intros Hys. rewrite (evaluateCriteria_returns _ _ _ Hys).
  cbn [trace state mCrit with_mCrit nParticles].
  repeat split. clear Hys. intros Hsame.
  induction Hsame as [|c v Hc _ IH]; [reflexivity|].
  rewrite fmap_cons, Hc. now f_equal.
Qed.

(** *** [setNextCriterium] *)

(** X6. When [pushResult] throws on criterion 0, [setNextCriterium]
    throws that exception and has rotated no criterion.  When
    [pushResult] returns and the rotation of criterion [k] is the first
    to throw, it throws that exception: the criteria up to [k - 1] have
    been rotated and the criteria after [k] have not. *)
Theorem setNextCriterium_throws prevResult m c0 e :
  mCrit m !! 0 = Some c0 ->
  ((Criteria.pushResult c0 prevResult).1 = Throws e ->
   setNextCriterium prevResult m =
   Ran (Throws e)
       (with_mCrit
          (<[0 := left_by (fun c => Criteria.pushResult c prevResult) c0]>
             (mCrit m)) m)
       [OnCrit 0 (PushResult prevResult)]) /\
  (forall k c bs,
     yields (fun c => Criteria.pushResult c prevResult) c0 tt ->
     <[0 := left_by (fun c => Criteria.pushResult c prevResult) c0]>
       (mCrit m) !! k = Some c ->
     Forall2 (yields Criteria.rotateCriteria)
       (take k
          (<[0 := left_by (fun c => Criteria.pushResult c prevResult) c0]>
             (mCrit m))) bs ->
     (Criteria.rotateCriteria c).1 = Throws e ->
     setNextCriterium prevResult m =
     Ran (Throws e)
         (with_mCrit
            ((left_by Criteria.rotateCriteria <$>
                take k
                  (<[0 := left_by
                            (fun c => Criteria.pushResult c prevResult) c0]>
                     (mCrit m))) ++
             left_by Criteria.rotateCriteria c ::
             drop (S k)
               (<[0 := left_by
                         (fun c => Criteria.pushResult c prevResult) c0]>
                  (mCrit m))) m)
         (OnCrit 0 (PushResult prevResult) ::
          ((fun i => OnCrit i RotateCriteria) <$> seq 0 (S k)))).
Proof.
  intros Hc0. split.
  - intros Hpush. unfold setNextCriterium, bind, crit_at. rewrite Hc0.
    unfold left_by. cbn beta.
    destruct (Criteria.pushResult c0 prevResult) as [o c0'].
    simpl in Hpush. now subst o.
  - intros k c bs Hpush. unfold yields, left_by in *. cbn beta in *.
    unfold setNextCriterium, bind, crit_at. rewrite Hc0. cbn beta.
    destruct (Criteria.pushResult c0 prevResult) as [o c0'].
    simpl in Hpush. subst o. cbn [fst snd result state trace].
    intros Hk Hpre Hc.
    set (m1 := with_mCrit (<[0:=c0']> (mCrit m)) m).
    rewrite (for_crit_throws RotateCriteria Criteria.rotateCriteria
               (fun _ b => Some b) None m1 k c e bs Hk Hpre Hc).
    reflexivity.
Qed.

(** *** Undefined behaviour *)

Lemma lookup_0_None {T : Type} (v : list T) : v !! 0 = None <-> v = [].
Proof. destruct v; split; intros; simplify_eq; reflexivity. Qed.

Lemma crit_at_undefined {A} name (f : Crit -> outcome A * Crit) m :
  defined f ->
  result (crit_at 0 name f m) = Undefined <-> mCrit m = [].
Proof.
  intros Hf. rewrite <- lookup_0_None. unfold crit_at.
  destruct (mCrit m !! 0) as [c|]; [|easy].
  specialize (Hf c). destruct (f c) as [o c']. simpl in *.
  split; [contradiction | discriminate].
Qed.

Lemma gp_at_undefined {A} name (f : GP -> outcome A * GP) m :
  defined f ->
  result (gp_at 0 name f m) = Undefined <-> mGP m = [].
Proof.
  intros Hf. rewrite <- lookup_0_None. unfold gp_at.
  destruct (mGP m !! 0) as [g|]; [|easy].
  specialize (Hf g). destruct (f g) as [o g']. simpl in *.
  split; [contradiction | discriminate].
Qed.

Lemma for_crit_defined {A B} name (f : Crit -> outcome B * Crit)
    (g : A -> B -> A) acc m :
  defined f -> result (for_crit name f g acc m) <> Undefined.
Proof.
  intros Hf Hundef. unfold for_crit in Hundef.
  destruct (for_each_undefined_inv f g (fun i => OnCrit i name)
              (mCrit m) 0 acc) as (k & c & _ & Hc).
  - now destruct (for_each f g _ 0 acc (mCrit m)) as [[o w] tr].
  - exact (Hf c Hc).
Qed.

Lemma for_gp_defined {A B} name (f : GP -> outcome B * GP)
    (g : A -> B -> A) acc m :
  defined f -> result (for_gp name f g acc m) <> Undefined.
Proof.
  intros Hf Hundef. unfold for_gp in Hundef.
  destruct (for_each_undefined_inv f g (fun i => OnGP i name)
              (mGP m) 0 acc) as (k & x & _ & Hx).
  - now destruct (for_each f g _ 0 acc (mGP m)) as [[o w] tr].
  - exact (Hf x Hx).
Qed.

(** The loop of [setNextCriterium] over at least one criterion assigns
    [rotated] when it returns. *)
Lemma rotation_assigned m rot :
  mCrit m <> [] ->
  result (for_crit RotateCriteria Criteria.rotateCriteria
            (fun _ b => Some b) None m) = Returns rot ->
  exists b, rot = Some b.
Proof.
  intros Hne Hret.
  apply for_crit_returns_inv in Hret as (bs & Hbs & -> & _).
  rewrite fold_left_assign.
  destruct (last bs) as [b|] eqn:Hlast; [now exists b|].
  apply last_None in Hlast. subst bs.
  apply Forall2_nil_inv_r in Hbs. contradiction.
Qed.

Lemma setNextCriterium_undefined prevResult m :
  defined (fun c => Criteria.pushResult c prevResult) ->
  defined Criteria.rotateCriteria ->
  result (setNextCriterium prevResult m) = Undefined <-> mCrit m = [].
Proof.
  intros Hpush Hrot. rewrite <- lookup_0_None.
  unfold setNextCriterium, bind, crit_at.
  destruct (mCrit m !! 0) as [c0|] eqn:Hc0; [|easy].
  split; [|discriminate]. cbn beta.
  specialize (Hpush c0). cbn beta in Hpush.
  destruct (Criteria.pushResult c0 prevResult) as [[[]|e|] c0'];
    cbn [fst result state trace] in *; try easy.
  set (m1 := with_mCrit (<[0:=c0']> (mCrit m)) m).
  pose proof (for_crit_defined RotateCriteria Criteria.rotateCriteria
                (fun _ b => Some b) None m1 Hrot) as Hloop.
  destruct (result (for_crit RotateCriteria Criteria.rotateCriteria
                      (fun _ b => Some b) None m1)) as [rot|e|] eqn:Hret;
    cbn [result]; try easy.
  destruct (rotation_assigned m1 rot) as [b ->]; [|exact Hret|easy].
  unfold m1. simpl. intros Hnil.
  apply (f_equal length) in Hnil. rewrite length_insert in Hnil.
  apply lookup_lt_Some in Hc0. simpl in Hnil. lia.
Qed.

(** X7. With collaborators whose calls are defined, the behaviour of
    the ensemble is undefined exactly when slot 0 of an empty
    collection is indexed: [criteriaRequiresComparison],
    [getBestCriteria] and [setNextCriterium] with no criterion,
    [getPrediction] with no surrogate.  In particular
    [setNextCriterium] never returns its local [rotated]
    uninitialised.  The five loops have defined behaviour on every
    ensemble, the empty one included. *)
Theorem undefined_iff_no_particle m :
  (defined Criteria.requireComparison ->
   (result (criteriaRequiresComparison m) = Undefined <-> mCrit m = [])) /\
  (forall best,
     defined (fun c => Criteria.getBestCriteria c best) ->
     (result (getBestCriteria best m) = Undefined <-> mCrit m = [])) /\
  (forall query,
     defined (fun g => NonParametricProcess.prediction g query) ->
     (result (getPrediction query m) = Undefined <-> mGP m = [])) /\
  (forall prevResult,
     defined (fun c => Criteria.pushResult c prevResult) ->
     defined Criteria.rotateCriteria ->
     (result (setNextCriterium prevResult m) = Undefined <->
      mCrit m = [])) /\
  (defined NonParametricProcess.fitSurrogateModel ->
   result (fitSurrogateModel m) <> Undefined) /\
  (defined NonParametricProcess.updateSurrogateModel ->
   result (updateSurrogateModel m) <> Undefined) /\
  (forall query,
     defined (fun c => Criteria.evaluate c query) ->
     result (evaluateCriteria query m) <> Undefined) /\
  (forall query,
     defined (fun c => Criteria.update c query) ->
     result (updateCriteria query m) <> Undefined) /\
  (defined Criteria.initialCriteria ->
   result (setFirstCriterium m) <> Undefined).
Proof.
  repeat split; try intros; 
    try (eapply crit_at_undefined; eassumption);
    try (eapply gp_at_undefined; eassumption);
    try (eapply setNextCriterium_undefined; eassumption);
    try (eapply for_gp_defined; eassumption);
    try (eapply for_crit_defined; eassumption).
  unfold evaluateCriteria, bind.
  match goal with
  | H : defined _ |- _ =>
      pose proof (for_crit_defined (Evaluate query)
                    (fun c => Criteria.evaluate c query)
                    PrimFloat.add 0%float m H) as Hloop
  end.
  destruct (result (for_crit _ _ _ _ m)); simpl; easy.
Qed.

(** *** The calls on slot 0 *)

Lemma crit_at_slot {A} i name (f : Crit -> outcome A * Crit) m :
  (forall j, j <> i ->
     mCrit (state (crit_at i name f m)) !! j = mCrit m !! j) /\
  mCrit (state (crit_at i name f m)) !! i = left_by f <$> mCrit m !! i /\
  trace (crit_at i name f m) =
    match mCrit m !! i with Some _ => [OnCrit i name] | None => [] end.
Proof.
  unfold crit_at, left_by.
  destruct (mCrit m !! i) as [c|] eqn:Hi; [|simpl; rewrite Hi; auto].
  cbn [fmap option_fmap option_map].
  destruct (f c) as [o c']. simpl. repeat split.
  - intros j Hj. now apply list_lookup_insert_ne.
  - apply list_lookup_insert_eq. now apply lookup_lt_Some in Hi.
Qed.

Lemma gp_at_slot {A} i name (f : GP -> outcome A * GP) m :
  (forall j, j <> i ->
     mGP (state (gp_at i name f m)) !! j = mGP m !! j) /\
  mGP (state (gp_at i name f m)) !! i = left_by f <$> mGP m !! i /\
  mCrit (state (gp_at i name f m)) = mCrit m /\
  trace (gp_at i name f m) =
    match mGP m !! i with Some _ => [OnGP i name] | None => [] end.
Proof.
  unfold gp_at, left_by.
  destruct (mGP m !! i) as [g|] eqn:Hi; [|simpl; rewrite Hi; auto].
  cbn [fmap option_fmap option_map].
  destruct (f g) as [o g']. simpl. repeat split.
  - intros j Hj. now apply list_lookup_insert_ne.
  - apply list_lookup_insert_eq. now apply lookup_lt_Some in Hi.
Qed.

(** X8. [criteriaRequiresComparison()] and [getBestCriteria(best)]
    make one call, on criterion 0, and leave every other criterion as
    it was; [getPrediction(query)] makes one call, on surrogate 0, and
    leaves every other surrogate and every criterion as they were.
    Slot 0 is left as the call left it. *)
Theorem delegations_touch_slot_0 m best query :
  ((forall j, j <> 0 ->
      mCrit (state (criteriaRequiresComparison m)) !! j = mCrit m !! j) /\
   mCrit (state (criteriaRequiresComparison m)) !! 0 =
     left_by Criteria.requireComparison <$> mCrit m !! 0 /\
   trace (criteriaRequiresComparison m) =
     match mCrit m !! 0 with
     | Some _ => [OnCrit 0 RequireComparison]
     | None => []
     end) /\
  ((forall j, j <> 0 ->
      mCrit (state (getBestCriteria best m)) !! j = mCrit m !! j) /\
   mCrit (state (getBestCriteria best m)) !! 0 =
     left_by (fun c => Criteria.getBestCriteria c best) <$> mCrit m !! 0 /\
   trace (getBestCriteria best m) =
     match mCrit m !! 0 with
     | Some _ => [OnCrit 0 (GetBestCriteria best)]
     | None => []
     end) /\
  ((forall j, j <> 0 ->
      mGP (state (getPrediction query m)) !! j = mGP m !! j) /\
   mGP (state (getPrediction query m)) !! 0 =
     left_by (fun g => NonParametricProcess.prediction g query) <$>
       mGP m !! 0 /\
   mCrit (state (getPrediction query m)) = mCrit m /\
   trace (getPrediction query m) =
     match mGP m !! 0 with
     | Some _ => [OnGP 0 (Prediction query)]
     | None => []
     end).
Proof.
  split; [apply crit_at_slot | split; [apply crit_at_slot | apply gp_at_slot]].
Qed.

(** *** Exceptions *)

Lemma for_crit_throws_inv {A B} name (f : Crit -> outcome B * Crit)
    (g : A -> B -> A) acc m e :
  result (for_crit name f g acc m) = Throws e ->
  exists k c, mCrit m !! k = Some c /\ (f c).1 = Throws e.
Proof.
  unfold for_crit. intros Hthrows.
  apply (for_each_throws_inv f g (fun i => OnCrit i name) (mCrit m) 0 acc).
  now destruct (for_each f g _ 0 acc (mCrit m)) as [[o w] tr].
Qed.

Lemma for_gp_throws_inv {A B} name (f : GP -> outcome B * GP)
    (g : A -> B -> A) acc m e :
  result (for_gp name f g acc m) = Throws e ->
  exists k x, mGP m !! k = Some x /\ (f x).1 = Throws e.
Proof.
  unfold for_gp. intros Hthrows.
  apply (for_each_throws_inv f g (fun i => OnGP i name) (mGP m) 0 acc).
  now destruct (for_each f g _ 0 acc (mGP m)) as [[o w] tr].
Qed.

Lemma crit_at_throws_inv {A} i name (f : Crit -> outcome A * Crit) m e :
  result (crit_at i name f m) = Throws e ->
  exists c, mCrit m !! i = Some c /\ (f c).1 = Throws e.
Proof.
  unfold crit_at. destruct (mCrit m !! i) as [c|]; [|discriminate].
  destruct (f c) as [o c'] eqn:Hf. simpl. intros ->.
  exists c. now rewrite Hf.
Qed.

Lemma gp_at_throws_inv {A} i name (f : GP -> outcome A * GP) m e :
  result (gp_at i name f m) = Throws e ->
  exists x, mGP m !! i = Some x /\ (f x).1 = Throws e.
Proof.
  unfold gp_at. destruct (mGP m !! i) as [x|]; [|discriminate].
  destruct (f x) as [o x'] eqn:Hf. simpl. intros ->.
  exists x. now rewrite Hf.
Qed.

(** X9. No inline member function throws an exception of its own:
    when one throws [e], the call it made on a surrogate or on a
    criterion of the ensemble threw [e].  For [setNextCriterium] that
    call is [pushResult] on criterion 0, or [rotateCriteria] on a
    criterion as [pushResult] left them. *)
Theorem throws_only_what_was_thrown m e :
  (result (fitSurrogateModel m) = Throws e ->
   exists k g, mGP m !! k = Some g /\
     (NonParametricProcess.fitSurrogateModel g).1 = Throws e) /\
  (result (updateSurrogateModel m) = Throws e ->
   exists k g, mGP m !! k = Some g /\
     (NonParametricProcess.updateSurrogateModel g).1 = Throws e) /\
  (forall query,
     result (evaluateCriteria query m) = Throws e ->
     exists k c, mCrit m !! k = Some c /\
       (Criteria.evaluate c query).1 = Throws e) /\
  (forall query,
     result (updateCriteria query m) = Throws e ->
     exists k c, mCrit m !! k = Some c /\
       (Criteria.update c query).1 = Throws e) /\
  (result (criteriaRequiresComparison m) = Throws e ->
   exists c, mCrit m !! 0 = Some c /\
     (Criteria.requireComparison c).1 = Throws e) /\
  (result (setFirstCriterium m) = Throws e ->
   exists k c, mCrit m !! k = Some c /\
     (Criteria.initialCriteria c).1 = Throws e) /\
  (forall prevResult,
     result (setNextCriterium prevResult m) = Throws e ->
     exists c0, mCrit m !! 0 = Some c0 /\
       ((Criteria.pushResult c0 prevResult).1 = Throws e \/
        exists k c,
          <[0 := left_by (fun c => Criteria.pushResult c prevResult) c0]>
            (mCrit m) !! k = Some c /\
          (Criteria.rotateCriteria c).1 = Throws e)) /\
  (forall best,
     result (getBestCriteria best m) = Throws e ->
     exists c, mCrit m !! 0 = Some c /\
       (Criteria.getBestCriteria c best).1 = Throws e) /\
  (forall query,
     result (getPrediction query m) = Throws e ->
     exists g, mGP m !! 0 = Some g /\
       (NonParametricProcess.prediction g query).1 = Throws e).
Proof.
  split; [apply for_gp_throws_inv|].
  split; [apply for_gp_throws_inv|].
  split.
  { intros query. unfold evaluateCriteria, bind.
    destruct (result (for_crit (Evaluate query) _ _ _ m)) as [y|e'|] eqn:Hloop;
      simpl; try discriminate.
    intros [= <-]. exact (for_crit_throws_inv _ _ _ _ _ _ Hloop). }
  split; [intros query; apply for_crit_throws_inv|].
  split; [apply (crit_at_throws_inv 0)|].
  split; [apply for_crit_throws_inv|].
  split; [|split; [intros best; apply (crit_at_throws_inv 0)
                  |intros query; apply (gp_at_throws_inv 0)]].
  intros prevResult. unfold setNextCriterium, bind.
  destruct (result (crit_at 0 (PushResult prevResult) _ m))
    as [[]|e'|] eqn:Hpush; cbn [result]; try discriminate.
  - unfold crit_at in *.
    destruct (mCrit m !! 0) as [c0|]; [|discriminate].
    unfold left_by. cbn beta in *.
    destruct (Criteria.pushResult c0 prevResult) as [o c0'] eqn:Hc0.
    cbn [result state trace fst snd] in *. subst o.
    set (m1 := with_mCrit (<[0:=c0']> (mCrit m)) m).
    destruct (result (for_crit RotateCriteria _ _ _ m1))
      as [rot|e'|] eqn:Hloop; cbn [result]; try discriminate.
    + now destruct rot.
    + intros [= <-]. exists c0. split; [reflexivity|]. right.
      rewrite Hc0.
      exact (for_crit_throws_inv _ _ _ _ _ _ Hloop).
  - intros [= <-].
    apply crit_at_throws_inv in Hpush as (c0 & Hc0 & Hthrows).
    exists c0. auto.
Qed.

(** *** Calls in sequence *)

Lemma for_gp_void_returns name (f : GP -> outcome unit * GP) m :
  Forall (fun x => yields f x tt) (mGP m) ->
  for_gp name f (fun _ _ => tt) tt m =
  Ran (Returns tt) (with_mGP (left_by f <$> mGP m) m)
      ((fun i => OnGP i name) <$> seq 0 (length (mGP m))).
Proof.
  intros Hall. apply Forall2_yields_tt in Hall.
  rewrite (for_gp_returns _ _ _ _ _ _ Hall).
  f_equal. clear. now induction (length (mGP m)).
Qed.

(** X10. When the fits return, [fitSurrogateModel()] leaves every
    surrogate fitted, in its slot; followed by
    [updateSurrogateModel()], whose updates return, every slot holds
    its surrogate fitted and then updated, and each call of the pair
    went through the surrogates once, in index order. *)
Theorem fit_then_update m :
  Forall (fun g => yields NonParametricProcess.fitSurrogateModel g tt)
    (mGP m) ->
  Forall (fun g =>
            yields NonParametricProcess.updateSurrogateModel
              (left_by NonParametricProcess.fitSurrogateModel g) tt)
    (mGP m) ->
  fitSurrogateModel m =
    Ran (Returns tt)
      (with_mGP (left_by NonParametricProcess.fitSurrogateModel <$> mGP m) m)
      ((fun i => OnGP i FitSurrogateModel) <$> seq 0 (length (mGP m))) /\
  updateSurrogateModel (state (fitSurrogateModel m)) =
    Ran (Returns tt)
      (with_mGP
         ((fun g => left_by NonParametricProcess.updateSurrogateModel
                      (left_by NonParametricProcess.fitSurrogateModel g))
            <$> mGP m) m)
      ((fun i => OnGP i UpdateSurrogateModel) <$> seq 0 (length (mGP m))).
Proof.
  intros Hfit Hupdate.
  assert (Hfitted : fitSurrogateModel m =
    Ran (Returns tt)
      (with_mGP (left_by NonParametricProcess.fitSurrogateModel <$> mGP m) m)
      ((fun i => OnGP i FitSurrogateModel) <$> seq 0 (length (mGP m)))).
  { exact (for_gp_void_returns _ _ _ Hfit). }
  split; [exact Hfitted|]. rewrite Hfitted. cbn [state].
  unfold updateSurrogateModel. rewrite for_gp_void_returns.
  - cbn [mGP with_mGP nParticles mCrit].
    now rewrite length_fmap, <- list_fmap_compose.
  - cbn [mGP with_mGP]. now apply Forall_fmap.
Qed.

(** X11. When [initialCriteria] returns and initialising an
    initialised criterion changes nothing, a second
    [setFirstCriterium()] leaves the ensemble as the first did. *)
Theorem setFirstCriterium_idempotent m :
  Forall (fun c =>
            yields Criteria.initialCriteria c tt /\
            yields Criteria.initialCriteria
              (left_by Criteria.initialCriteria c) tt /\
            left_by Criteria.initialCriteria
              (left_by Criteria.initialCriteria c) =
            left_by Criteria.initialCriteria c)
    (mCrit m) ->
  result (setFirstCriterium (state (setFirstCriterium m))) = Returns tt /\
  state (setFirstCriterium (state (setFirstCriterium m))) =
    state (setFirstCriterium m).
Proof.
  intros Hall.
  rewrite (proj1 (setFirstCriterium_each m)); cbn [state].
  2: { eapply Forall_impl; [exact Hall|]. now intros c (? & _). }
  rewrite (proj1 (setFirstCriterium_each _));
    cbn [state result mCrit with_mCrit].
  2: { apply Forall_fmap. eapply Forall_impl; [exact Hall|].
       now intros c (_ & ? & _). }
  split; [reflexivity|].
  unfold with_mCrit. cbn. f_equal.
  induction Hall as [|c v (_ & _ & Hc) _ IH]; [reflexivity|].
  rewrite !fmap_cons, Hc. now f_equal.
Qed.

(** X12. A rotation that throws part-way leaves the ensemble out of
    step.  On an ensemble whose criteria have the same active index:
    when [pushResult] returns and leaves the index of criterion 0
    where it was, the rotation of criterion 0 moves its index, and the
    rotation of a later criterion [k] is the first to throw, leaving
    the index of criterion [k] where it was, then after
    [setNextCriterium] the criteria 0 and [k] have different active
    indices.  Nothing in [setNextCriterium] undoes the rotations
    already made. *)
Theorem setNextCriterium_throws_out_of_step
    (activeIndex : Crit -> nat) prevResult m c0 k c bs e :
  synchronized activeIndex m ->
  mCrit m !! 0 = Some c0 ->
  yields (fun c => Criteria.pushResult c prevResult) c0 tt ->
  activeIndex (left_by (fun c => Criteria.pushResult c prevResult) c0) =
    activeIndex c0 ->
  0 < k ->
  mCrit m !! k = Some c ->
  Forall2 (yields Criteria.rotateCriteria)
    (take k
       (<[0 := left_by (fun c => Criteria.pushResult c prevResult) c0]>
          (mCrit m))) bs ->
  (Criteria.rotateCriteria c).1 = Throws e ->
  activeIndex
    (left_by Criteria.rotateCriteria
       (left_by (fun c => Criteria.pushResult c prevResult) c0)) <>
  activeIndex (left_by (fun c => Criteria.pushResult c prevResult) c0) ->
  activeIndex (left_by Criteria.rotateCriteria c) = activeIndex c ->
  result (setNextCriterium prevResult m) = Throws e /\
  ~ synchronized activeIndex (state (setNextCriterium prevResult m)).
Proof.
  intros Hsync Hc0 Hpush Hpushed Hpos Hk Hpre Hc Hmoved Hstayed.
  assert (Hk' :
    <[0 := left_by (fun c => Criteria.pushResult c prevResult) c0]>
      (mCrit m) !! k = Some c).
  { rewrite list_lookup_insert_ne; [exact Hk | lia]. }
  rewrite (proj2 (setNextCriterium_throws prevResult m c0 e Hc0)
             k c bs Hpush Hk' Hpre Hc).
  split; [reflexivity|]. intros Hsync'.
  unfold synchronized in Hsync'. cbn [state mCrit with_mCrit] in Hsync'.
  revert Hk' Hmoved Hpushed Hsync'.
  generalize (left_by (fun c => Criteria.pushResult c prevResult) c0).
  intros c0' Hk' Hmoved Hpushed Hsync'.
  assert (Hlen : length (take k (<[0 := c0']> (mCrit m))) = k).
  { apply length_take_le. apply lookup_lt_Some in Hk'. lia. }
  apply Hmoved.
  rewrite (Hsync' 0 k (left_by Criteria.rotateCriteria c0')
             (left_by Criteria.rotateCriteria c)).
  - rewrite Hstayed, Hpushed. exact (Hsync _ _ _ _ Hk Hc0).
  - rewrite lookup_app_l; [|rewrite length_fmap, Hlen; lia].
    rewrite list_lookup_fmap, lookup_take_lt by lia.
    rewrite list_lookup_insert_eq; [reflexivity|].
    apply lookup_lt_Some in Hc0. exact Hc0.
  - rewrite <- Hlen at 1.
    rewrite <- (length_fmap (left_by Criteria.rotateCriteria)).
    apply list_lookup_middle. reflexivity.
Qed.

End Behaviour.

(** ** NaN in [evaluateCriteria] *)

Lemma float_of_nan (z : float) : Prim2SF z = S754_nan -> z = nan.
Proof. intros Hz. rewrite <- (SF2Prim_Prim2SF z), Hz. reflexivity. Qed.

Lemma add_nan_r (x : float) : PrimFloat.add x nan = nan.
Proof.
  apply float_of_nan. rewrite add_spec.
  change (Prim2SF nan) with S754_nan. now destruct (Prim2SF x).
Qed.

Lemma add_nan_l (y : float) : PrimFloat.add nan y = nan.
Proof.
  apply float_of_nan. rewrite add_spec.
  change (Prim2SF nan) with S754_nan. reflexivity.
Qed.

Lemma div_nan_l (d : float) : PrimFloat.div nan d = nan.
Proof.
  apply float_of_nan. rewrite div_spec.
  change (Prim2SF nan) with S754_nan. reflexivity.
Qed.

(** Once the running sum is NaN it stays NaN. *)
Lemma fold_add_nan (ys : list float) : fold_left PrimFloat.add ys nan = nan.
Proof.
  induction ys as [|y ys IH]; [reflexivity|].
  simpl. now rewrite add_nan_l.
Qed.

Lemma fold_add_has_nan (ys : list float) (k : nat) :
  ys !! k = Some nan ->
  forall acc, fold_left PrimFloat.add ys acc = nan.
Proof.
  revert k. induction ys as [|y ys IH]; intros k Hk acc; [discriminate|].
  destruct k as [|k]; simpl in *.
  - injection Hk as ->. rewrite add_nan_r. apply fold_add_nan.
  - exact (IH k Hk _).
Qed.

Section NaN.

Import MCMCModel.
Context {Crit GP : Type} `{!Criteria.t Crit}.

(** X4. A single NaN poisons the score: when the evaluations return
    and the evaluation of some particle is NaN, [evaluateCriteria]
    returns NaN, whatever the other particles evaluate to and whatever
    [nParticles] is. *)
Theorem evaluateCriteria_nan (m : MCMCModel.t Crit GP) query ys k :
  Forall2 (yields (fun c => Criteria.evaluate c query)) (mCrit m) ys ->
  ys !! k = Some nan ->
  result (evaluateCriteria query m) = Returns nan.
Proof.
  intros Hys Hk. rewrite (evaluateCriteria_returns _ _ _ Hys). simpl.
  unfold sum. now rewrite (fold_add_has_nan ys k Hk), div_nan_l.
Qed.

End NaN.

(** ** Further scenarios on the test doubles *)

Section FurtherScenarios.

Import MCMCModel.
#[local] Existing Instance Stub.criteria.
#[local] Existing Instance Stub.process.
#[local] Existing Instance Faulty.criteria.
#[local] Existing Instance RewardDriven.criteria.
#[local] Existing Instance Flaky.criteria.

(** The update of the broken criterion 1 throws: criterion 2 is not
    called. *)
Lemma updateCriteria_each_witness :
  result (updateCriteria [] Faulty.second_broken) =
    Throws (StdException "criterion failed") /\
  trace (updateCriteria [] Faulty.second_broken) =
    [OnCrit 0 (Update []); OnCrit 1 (Update [])].
Proof.
  assert (Hbefore : forall j c', j < 1 ->
            mCrit Faulty.second_broken !! j = Some c' ->
            yields (fun c => Criteria.update c []) c' tt).
  { intros [|j] c' Hlt; [intros [= <-]; reflexivity | lia]. }
  rewrite (proj1 (proj2 (updateCriteria_each [] Faulty.second_broken))
             1 (Faulty.unsound 2) (StdException "criterion failed")
             ltac:(reflexivity) Hbefore ltac:(reflexivity)).
  split; reflexivity.
Defined.

(** [setFirstCriterium] on criteria that have been rotated. *)
Lemma setFirstCriterium_each_witness :
  Stub.active <$> mCrit (state (setFirstCriterium Stub.diverged)) =
    [0; 0; 0; 0] /\
  length (trace (setFirstCriterium Stub.diverged)) = 4.
Proof.
  rewrite (proj1 (setFirstCriterium_each Stub.diverged)
             ltac:(repeat constructor)).
  split; reflexivity.
Defined.

(** The evaluation of the broken criterion 1 throws. *)
Lemma evaluateCriteria_throws_witness :
  result (evaluateCriteria [] Faulty.second_broken) =
    Throws (StdException "criterion failed") /\
  trace (evaluateCriteria [] Faulty.second_broken) =
    [OnCrit 0 (Evaluate []); OnCrit 1 (Evaluate [])].
Proof.
  rewrite (evaluateCriteria_throws [] Faulty.second_broken 1
             (Faulty.unsound 2) (StdException "criterion failed")
             [1%float] ltac:(reflexivity) ltac:(repeat constructor)
             ltac:(reflexivity)).
  split; reflexivity.
Defined.

(** One NaN among three evaluations. *)
Lemma evaluateCriteria_nan_witness :
  result (evaluateCriteria []
            (Build (GP := Stub.surrogate) 3%N []
               [Stub.Criterion 1 0 2 []; Stub.Criterion nan 0 2 [];
                Stub.Criterion 3 0 2 []])) = Returns nan.
Proof.
  apply (evaluateCriteria_nan _ [] [1%float; nan; 3%float] 1);
    [repeat constructor | reflexivity].
Defined.

(** The stub criteria are not changed by an evaluation. *)
Lemma evaluateCriteria_each_witness :
  mCrit (state (evaluateCriteria [] Stub.three)) = mCrit Stub.three /\
  length (trace (evaluateCriteria [] Stub.three)) = 3.
Proof.
  destruct (evaluateCriteria_each [] Stub.three
              [1%float; 2%float; 3%float] ltac:(repeat constructor))
    as (Htrace & _ & _ & Hsame).
  split; [apply Hsame; repeat constructor | now rewrite Htrace].
Defined.

(** A push that throws: no rotation.  A rotation that throws on
    criterion 1: criterion 0 has been rotated, criterion 2 has not. *)
Lemma setNextCriterium_throws_witness :
  trace (setNextCriterium [] Faulty.first_broken) =
    [OnCrit 0 (PushResult [])] /\
  Faulty.active <$> mCrit (state (setNextCriterium [] Faulty.first_broken)) =
    [0; 0; 0] /\
  result (setNextCriterium [] Faulty.second_broken) =
    Throws (StdException "criterion failed") /\
  Faulty.active <$> mCrit (state (setNextCriterium [] Faulty.second_broken)) =
    [1; 0; 0].
Proof.
  rewrite (proj1 (setNextCriterium_throws [] Faulty.first_broken
                    (Faulty.unsound 1) (StdException "criterion failed")
                    ltac:(reflexivity)) ltac:(reflexivity)).
  rewrite (proj2 (setNextCriterium_throws [] Faulty.second_broken
                    (Faulty.sound 1) (StdException "criterion failed")
                    ltac:(reflexivity))
             1 (Faulty.unsound 2) [true] ltac:(reflexivity) ltac:(reflexivity)
             ltac:(repeat constructor) ltac:(reflexivity)).
  repeat split.
Defined.

(** With no particle [setNextCriterium] is undefined; with three it is
    not. *)
Lemma undefined_iff_no_particle_witness :
  result (setNextCriterium [] Stub.none) = Undefined /\
  result (setNextCriterium [] Stub.three) <> Undefined /\
  result (setFirstCriterium Stub.none) <> Undefined.
Proof.
  assert (Hpush : defined (fun c : Stub.criterion => Criteria.pushResult c []))
    by (intros c; discriminate).
  assert (Hrotate : defined (Criteria.rotateCriteria (Crit := Stub.criterion)))
    by (intros c; discriminate).
  assert (Hinit : defined (Criteria.initialCriteria (Crit := Stub.criterion)))
    by (intros c; discriminate).
  destruct (undefined_iff_no_particle Stub.none)
    as (_ & _ & _ & Hnext & _ & _ & _ & _ & Hfirst).
  destruct (undefined_iff_no_particle Stub.three)
    as (_ & _ & _ & Hnext3 & _).
  split; [exact (proj2 (Hnext [] Hpush Hrotate) ltac:(reflexivity))|].
  split; [|exact (Hfirst Hinit)].
  intros Hundef. apply (Hnext3 [] Hpush Hrotate) in Hundef. discriminate.
Defined.

(** The exception of [evaluateCriteria] comes from a criterion. *)
Lemma throws_only_what_was_thrown_witness :
  exists k c,
    mCrit Faulty.second_broken !! k = Some c /\
    (Criteria.evaluate c []).1 = Throws (StdException "criterion failed").
Proof.
  destruct (throws_only_what_was_thrown (Dist := nat) Faulty.second_broken
              (StdException "criterion failed"))
    as (_ & _ & Hevaluate & _).
  exact (Hevaluate [] ltac:(reflexivity)).
Defined.

(** A fit and an update of three sound surrogates. *)
Lemma fit_then_update_witness :
  Stub.fits <$>
    mGP (state (updateSurrogateModel (state (fitSurrogateModel Stub.three)))) =
    [2; 2; 2].
Proof.
  rewrite (proj2 (fit_then_update Stub.three
                    ltac:(repeat constructor) ltac:(repeat constructor))).
  reflexivity.
Defined.

(** Initialising the stub criteria twice. *)
Lemma setFirstCriterium_idempotent_witness :
  state (setFirstCriterium (state (setFirstCriterium Stub.diverged))) =
  state (setFirstCriterium Stub.diverged).
Proof.
  apply (setFirstCriterium_idempotent Stub.diverged).
  repeat constructor.
Defined.

(** The rotation of the broken criterion 1 throws after criterion 0
    has moved to index 1. *)
Lemma setNextCriterium_throws_out_of_step_witness :
  synchronized Faulty.active Faulty.second_broken /\
  ~ synchronized Faulty.active
      (state (setNextCriterium [] Faulty.second_broken)).
Proof.
  assert (Hsync : synchronized Faulty.active Faulty.second_broken).
  { intros [|[|[|i]]] [|[|[|j]]] ci cj; simpl;
      intros [= <-] [= <-]; reflexivity. }
  split; [exact Hsync|].
  apply (setNextCriterium_throws_out_of_step Faulty.active []
           Faulty.second_broken (Faulty.sound 1) 1 (Faulty.unsound 2)
           [true] (StdException "criterion failed")
           Hsync ltac:(reflexivity) ltac:(reflexivity) ltac:(reflexivity)
           ltac:(lia) ltac:(reflexivity) ltac:(repeat constructor)
           ltac:(reflexivity) ltac:(discriminate) ltac:(reflexivity)).
Defined.

(** C4 as stated fails.  With criteria that rotate by reward, after
    [setFirstCriterium()] one call [setNextCriterium(r)] returns and
    leaves particle 0, the only one to have been given the result, on
    index 1 and particle 1 on index 0.  With criteria that rotate by
    index, a call whose rotation throws at particle 1 is followed by a
    call that returns and leaves the indices 2, 2 and 1. *)
Lemma criteria_diverge :
  (result (setFirstCriterium RewardDriven.two) = Returns tt /\
   synchronized RewardDriven.active
     (state (setFirstCriterium RewardDriven.two)) /\
   result (setNextCriterium [1%float]
             (state (setFirstCriterium RewardDriven.two))) =
     Returns false /\
   RewardDriven.active <$>
     mCrit (state (setNextCriterium [1%float]
                     (state (setFirstCriterium RewardDriven.two)))) =
     [1; 0] /\
   ~ synchronized RewardDriven.active
       (state (setNextCriterium [1%float]
                 (state (setFirstCriterium RewardDriven.two))))) /\
  (IndexDrivenRotation Flaky.active /\
   synchronized Flaky.active Flaky.three /\
   result (setNextCriterium [] Flaky.three) =
     Throws (StdException "rotation failed") /\
   result (setNextCriterium [] (state (setNextCriterium [] Flaky.three))) =
     Returns true /\
   Flaky.active <$>
     mCrit (state (setNextCriterium []
                     (state (setNextCriterium [] Flaky.three)))) =
     [2; 2; 1] /\
   ~ synchronized Flaky.active
       (state (setNextCriterium []
                 (state (setNextCriterium [] Flaky.three))))).
Proof.
  assert (Hindex : IndexDrivenRotation Flaky.active).
  { split; unfold yields, left_by.
    - reflexivity.
    - reflexivity.
    - intros c1 c2 b1 b2 _ _ Hsame. simpl.
      destruct (Flaky.fuse c1), (Flaky.fuse c2); simpl; congruence. }
  split.
  - split; [reflexivity|]. split.
    { intros [|[|i]] [|[|j]] ci cj; simpl;
        intros [= <-] [= <-]; reflexivity. }
    split; [reflexivity|]. split; [reflexivity|].
    intros Hsync.
    specialize (Hsync 0 1 _ _ ltac:(reflexivity) ltac:(reflexivity)).
    discriminate.
  - split; [exact Hindex|]. split.
    { intros [|[|[|i]]] [|[|[|j]]] ci cj; simpl;
        intros [= <-] [= <-]; reflexivity. }
    split; [reflexivity|]. split; [reflexivity|]. split; [reflexivity|].
    intros Hsync.
    specialize (Hsync 0 2 _ _ ltac:(reflexivity) ltac:(reflexivity)).
    discriminate.
Qed.

End FurtherScenarios.
